(** * subscribedev-boilerplate: the development server and the production build

    A shallow embedding of [server.ts] (the Bun development server with its
    bundle cache and source watcher), [build.ts] (the production build
    script) and [src/App.tsx] (the application root), and the properties of
    the specification proved or refuted over it.

    JavaScript strings are modelled as [string]: a sequence of code units,
    here one byte each.  The external bundler [Bun.build], the file system
    and the process environment are the parameters of the model. *)

From Stdlib Require Import Ascii String NArith ZArith List Bool Lia.
From stdpp Require Import base option list gmap strings fin_maps.

Set Default Proof Using "Type".

(** ** JavaScript strings *)

Module JsString.

(** [s.slice(n)]: the string without its first [n] code units. *)
Fixpoint drop (n : nat) (s : string) : string :=
  match n, s with
  | O, _ => s
  | S _, EmptyString => EmptyString
  | S n', String _ s' => drop n' s'
  end.

(** [s.slice(0, n)]: the first [n] code units. *)
Fixpoint take (n : nat) (s : string) : string :=
  match n, s with
  | O, _ => EmptyString
  | S _, EmptyString => EmptyString
  | S n', String c s' => String c (take n' s')
  end.

(** [s.startsWith(p)]. *)
Fixpoint startsWith (s p : string) : bool :=
  match p, s with
  | EmptyString, _ => true
  | String _ _, EmptyString => false
  | String a p', String b s' => if Ascii.eqb a b then startsWith s' p' else false
  end.

(** [s.endsWith(p)]: the last [length p] code units of [s] are [p]. *)
Definition endsWith (s p : string) : bool :=
  (String.length p <=? String.length s)%nat
  && String.eqb (drop (String.length s - String.length p) s) p.

(** [s.indexOf(p)]: the least position at which [p] occurs, [None] for the
    -1 of JavaScript. *)
Fixpoint indexOf (s p : string) : option nat :=
  if startsWith s p then Some O
  else match s with
       | EmptyString => None
       | String _ s' => S <$> indexOf s' p
       end.

(** [s.replace(p, r)] for a string pattern [p] and a replacement [r] that
    holds no [$]: the text before the first occurrence of [p], then [r],
    then the text after that occurrence; [s] itself when [p] does not
    occur. *)
Definition replace (s p r : string) : string :=
  match indexOf s p with
  | None => s
  | Some pos => take pos s +:+ r +:+ drop (pos + String.length p) s
  end.

(** The number of positions of [s] at which [p] occurs. *)
Fixpoint occurrences (p s : string) : nat :=
  (if startsWith s p then 1 else 0) +
  match s with
  | EmptyString => 0
  | String _ s' => occurrences p s'
  end.

(** [s.includes(p)]. *)
Definition includes (s p : string) : bool :=
  match indexOf s p with Some _ => true | None => false end.

(** [split_first p s]: the text before and the text after the first
    occurrence of [p] in [s]. *)
Fixpoint split_first (p s : string) : option (string * string) :=
  if startsWith s p then Some (EmptyString, drop (String.length p) s)
  else match s with
       | EmptyString => None
       | String c s' =>
           match split_first p s' with
           | Some (a, b) => Some (String c a, b)
           | None => None
           end
       end.

(** Two strings clash when they differ at a position both have: neither
    is then a prefix of the other. *)
Fixpoint clash (a b : string) : bool :=
  match a, b with
  | String x a', String y b' => if Ascii.eqb x y then clash a' b' else true
  | _, _ => false
  end.

(** Every non-empty suffix of [p] clashes with [m]: no occurrence of a
    string ending in [p] can run into a following [m]. *)
Fixpoint suffixes_clash (p m : string) : bool :=
  match p with
  | EmptyString => true
  | String _ p' => clash p m && suffixes_clash p' m
  end.

(** [p] clashes with every non-empty suffix of [m]: no occurrence of [p]
    starts inside [m]. *)
Fixpoint clash_suffixes (p m : string) : bool :=
  match m with
  | EmptyString => true
  | String _ m' => clash p m && clash_suffixes p m'
  end.

(** [m] is inert for [p]: an occurrence of [p] in [x +:+ m +:+ y] lies
    within [x] or within [y]. *)
Definition inert (p m : string) : bool :=
  match p with
  | EmptyString => false
  | String _ p' => suffixes_clash p' m && clash_suffixes p m
  end.

(** A pattern that does not overlap itself. *)
Definition self_inert (p : string) : bool :=
  match p with
  | EmptyString => false
  | String _ p' => suffixes_clash p' p && clash_suffixes p p'
  end.

End JsString.

(** ** JSON.stringify on strings *)

Module JSON.

Definition dquote : ascii := "034"%char.
Definition backslash : ascii := "092"%char.

Definition hex_digit (n : N) : ascii :=
  match n with
  | 0 => "0" | 1 => "1" | 2 => "2" | 3 => "3" | 4 => "4" | 5 => "5"
  | 6 => "6" | 7 => "7" | 8 => "8" | 9 => "9" | 10 => "a" | 11 => "b"
  | 12 => "c" | 13 => "d" | 14 => "e" | _ => "f"
  end%N%char.

(** The [\uXXXX] escape of a code unit, with lowercase digits. *)
Definition unicode_escape (c : ascii) : string :=
  let n := N_of_ascii c in
  String backslash (String "u" (String "0" (String "0"
    (String (hex_digit (n / 16)) (String (hex_digit (n mod 16)) EmptyString))))).

(** QuoteJSONString, one code unit: the two-character escapes of the
    standard, [\uXXXX] for the other control characters, the code unit
    itself otherwise. *)
Definition quote_char (c : ascii) : string :=
  match c with
  | "008"%char => String backslash (String "b" EmptyString)
  | "009"%char => String backslash (String "t" EmptyString)
  | "010"%char => String backslash (String "n" EmptyString)
  | "012"%char => String backslash (String "f" EmptyString)
  | "013"%char => String backslash (String "r" EmptyString)
  | "034"%char => String backslash (String dquote EmptyString)
  | "092"%char => String backslash (String backslash EmptyString)
  | _ => if (N_of_ascii c <? 32)%N then unicode_escape c
         else String c EmptyString
  end.

Fixpoint quote_chars (s : string) : string :=
  match s with
  | EmptyString => String dquote EmptyString
  | String c s' => quote_char c +:+ quote_chars s'
  end.

(** [JSON.stringify(s)] for a string [s]. *)
Definition stringify (s : string) : string :=
  String dquote (quote_chars s).

(** The value of a hexadecimal digit, of either case. *)
Definition hex_value (c : ascii) : option N :=
  let n := N_of_ascii c in
  if (48 <=? n)%N && (n <=? 57)%N then Some (n - 48)%N
  else if (97 <=? n)%N && (n <=? 102)%N then Some (n - 87)%N
  else if (65 <=? n)%N && (n <=? 70)%N then Some (n - 55)%N
  else None.

(** The characters of a JSON string literal after its opening quote, read
    back: the value the literal denotes. *)
Fixpoint parse_chars (s : string) : option string :=
  match s with
  | EmptyString => None
  | String "034" EmptyString => Some EmptyString
  | String "034" (String _ _) => None
  | String "092" (String "u" (String h1 (String h2 (String h3 (String h4 rest))))) =>
      match hex_value h1, hex_value h2, hex_value h3, hex_value h4 with
      | Some 0%N, Some 0%N, Some a, Some b =>
          String (ascii_of_N (16 * a + b)) <$> parse_chars rest
      | _, _, _, _ => None
      end
  | String "092" (String e rest) =>
      match e with
      | "b" => String "008" <$> parse_chars rest
      | "t" => String "009" <$> parse_chars rest
      | "n" => String "010" <$> parse_chars rest
      | "f" => String "012" <$> parse_chars rest
      | "r" => String "013" <$> parse_chars rest
      | "034" => String "034" <$> parse_chars rest
      | "092" => String "092" <$> parse_chars rest
      | "/" => String "/" <$> parse_chars rest
      | _ => None
      end%char
  | String "092" EmptyString => None
  | String c rest =>
      if (N_of_ascii c <? 32)%N then None else String c <$> parse_chars rest
  end%char.

(** [JSON.parse(t)] for a text [t] that is one string literal. *)
Definition parse_string (t : string) : option string :=
  match t with
  | String "034" rest => parse_chars rest
  | _ => None
  end%char.

End JSON.

(** ** parseInt *)

Module JsNumber.

(** What [parseInt] gives: not-a-number, or an integer.  An integer of
    2^53 or more is beyond the integers a JavaScript number holds exactly;
    it is not followed further. *)
Inductive Number :=
| NaN
| Int (value : Z)
| Inexact.

(** The white space [parseInt] skips at the start, among the code units of
    one byte: tab, line feed, vertical tab, form feed, carriage return,
    space and no-break space. *)
Definition is_white_space (c : ascii) : bool :=
  let n := N_of_ascii c in
  ((9 <=? n)%N && (n <=? 13)%N) || (n =? 32)%N || (n =? 160)%N.

Fixpoint trim_start (s : string) : string :=
  match s with
  | String c s' => if is_white_space c then trim_start s' else s
  | EmptyString => EmptyString
  end.

(** The value of a digit of the radix, if the code unit is one. *)
Definition digit_value (radix : N) (c : ascii) : option N :=
  match JSON.hex_value c with
  | Some d => if (d <? radix)%N then Some d else None
  | None => None
  end.

(** The number spelled by the longest run of digits at the start of [s],
    after the digits already read ([acc]); [None] when there is none. *)
Fixpoint digits (radix : N) (s : string) (acc : option N) : option N :=
  match s with
  | String c s' =>
      match digit_value radix c with
      | Some d => digits radix s' (Some (radix * default 0%N acc + d)%N)
      | None => acc
      end
  | EmptyString => acc
  end.

(** [parseInt(s)], with no radix given: leading white space is skipped, a
    sign is read, then [0x] or [0X] for radix 16, then the digits as far as
    they go. *)
Definition parseInt (s : string) : Number :=
  let s1 := trim_start s in
  let '(negative, s2) :=
    match s1 with
    | String "-" rest => (true, rest)
    | String "+" rest => (false, rest)
    | _ => (false, s1)
    end%char in
  let '(radix, s3) :=
    match s2 with
    | String "0" (String "x" rest) => (16%N, rest)
    | String "0" (String "X" rest) => (16%N, rest)
    | _ => (10%N, s2)
    end%char in
  match digits radix s3 None with
  | None => NaN
  | Some n =>
      if (n <? 2 ^ 53)%N
      then Int (if negative then - Z.of_N n else Z.of_N n)
      else Inexact
  end.

(** The decimal digit of a number below ten, and the string of a list of
    such numbers. *)
Definition digit_char (d : N) : ascii := ascii_of_N (48 + d).

Fixpoint numeral (ds : list N) : string :=
  match ds with
  | [] => EmptyString
  | d :: ds' => String (digit_char d) (numeral ds')
  end.

(** The number a list of decimal digits spells after [acc]. *)
Definition spelled (acc : N) (ds : list N) : N :=
  foldl (fun a d => (10 * a + d)%N) acc ds.

(** [s] does not go on with a decimal digit. *)
Definition no_digit_ahead (s : string) : bool :=
  match s with
  | String c _ =>
      match digit_value 10 c with Some _ => false | None => true end
  | EmptyString => true
  end.

(** [s] does not go on with [x] or [X], the mark of radix 16 after a
    zero. *)
Definition no_hex_mark (s : string) : bool :=
  match s with
  | String c _ => negb (Ascii.eqb c "x") && negb (Ascii.eqb c "X")
  | EmptyString => true
  end.

End JsNumber.

(** ** The Bun runtime, as far as the two scripts use it *)

(** An [Error] object: [name] and [message]. *)
Record JsError := { err_name : string; err_message : string }.

(** [new Error(message)]. *)
Definition Error (message : string) : JsError :=
  {| err_name := "Error"; err_message := message |}.

(** [Error.prototype.toString], what a template literal makes of an error. *)
Definition error_toString (e : JsError) : string :=
  if String.eqb (err_name e) EmptyString then err_message e
  else if String.eqb (err_message e) EmptyString then err_name e
  else err_name e +:+ ": " +:+ err_message e.

(** One output of [Bun.build]. *)
Record BuildArtifact := {
  artifact_path : string;
  artifact_size : N;
  artifact_text : string
}.

(** One entry of [result.logs]. *)
Record BuildMessage := { message_level : string; message_text : string }.

(** The value [Bun.build] resolves to. *)
Record BuildResult := {
  success : bool;
  outputs : list BuildArtifact;
  logs : list BuildMessage
}.

(** The argument of [Bun.build]; [define] is the table of compile-time
    substitutions, symbol to replacement text. *)
Record BuildConfig := {
  entrypoints : list string;
  outdir : option string;
  target : string;
  format : string;
  splitting : bool;
  minify : bool;
  define : gmap string string
}.

(** [await Bun.build(...)] resolves to a result, or rejects. *)
Inductive BuildOutcome :=
| Resolved (result : BuildResult)
| Rejected (err : JsError).

(** What is outside the scripts: the bundler and the file system, over a
    state of the world that the bundler may change. *)
Class Runtime (World : Type) := {
  (** [await Bun.build(config)] *)
  Bun_build : BuildConfig -> World -> BuildOutcome * World;
  (** [await Bun.file(path).exists()] *)
  file_exists : string -> World -> bool;
  (** [await Bun.file(path).text()], rejecting when the file cannot be read *)
  file_text : string -> World -> JsError + string
}.

(** [process.env]. *)
Abbreviation Env := (gmap string string).

(** [process.env.NAME || fallback]: the fallback for an unset and for an
    empty variable. *)
Definition env_or (env : Env) (name fallback : string) : string :=
  match env !! name with
  | Some v => if String.eqb v EmptyString then fallback else v
  | None => fallback
  end.

Definition PUBLIC_API_KEY : string := "VITE_SUBSCRIBEDEV_PUBLIC_API_KEY".
Definition LOCAL_ACCESS_TOKEN : string := "VITE_SUBSCRIBEDEV_LOCAL_ACCESS_TOKEN".

(** The symbol [import.meta.env.NAME]. *)
Definition import_meta_env (name : string) : string :=
  "import.meta.env." +:+ name.

(** ** build.ts: the production build script *)

Module Build.

(** The [define] table of build.ts. *)
Definition build_define (env : Env) : gmap string string :=
  <[import_meta_env "PROD" := "true"]>
  (<[import_meta_env "MODE" := JSON.stringify "production"]>
  (<[import_meta_env "DEV" := "false"]>
  (<[import_meta_env LOCAL_ACCESS_TOKEN := "undefined"]>
  (<[import_meta_env PUBLIC_API_KEY :=
       JSON.stringify (env_or env PUBLIC_API_KEY EmptyString)]> ∅)))).

(** The argument of the [Bun.build] call of build.ts. *)
Definition build_config (env : Env) : BuildConfig :=
  {| entrypoints := ["./src/main.tsx"];
     outdir := Some "./dist";
     target := "browser";
     format := "esm";
     splitting := true;
     minify := true;
     define := build_define env |}.

(** The lines the script prints with [console.log]; their wording (and
    the formatting of a size in KB) is left out. *)
Inductive LogLine :=
| BuildSuccessful
| Generated (files : nat)
| OutputLine (shown_path : string) (size : N)
| HtmlCopied.

(** What the script does to the outside, in order. *)
Inductive Effect :=
| ConsoleError (text : string)
| ConsoleErrorMessage (message : BuildMessage)
| ConsoleLog (line : LogLine)
| FileWrite (path content : string).

(** How the script ends: it runs to its last line, calls
    [process.exit(code)], or an awaited promise rejects and nothing
    catches it. *)
Inductive Termination :=
| Completed
| Exited (code : Z)
| Uncaught (err : JsError).

(** The exit status of the process; the runtime gives 1 to a script
    that dies of an uncaught error. *)
Definition exit_status (t : Termination) : Z :=
  match t with
  | Completed => 0
  | Exited code => code
  | Uncaught _ => 1
  end.

Record Run (World : Type) := {
  effects : list Effect;
  termination : Termination;
  final_world : World
}.
Arguments effects {World} _.
Arguments termination {World} _.
Arguments final_world {World} _.

(** [html.replace('/src/index.css', '/main.css')
        .replace('/src/main.tsx', '/main.js')]. *)
Definition updatedHtml (html : string) : string :=
  JsString.replace
    (JsString.replace html "/src/index.css" "/main.css")
    "/src/main.tsx" "/main.js".

Section Script.
Context {World : Type} `{!Runtime World}.

(** The script after a build that succeeded. *)
Definition after_success (cwd : string) (result : BuildResult) (w : World)
  : Run World :=
  let report :=
    ConsoleLog BuildSuccessful
    :: ConsoleLog (Generated (length (outputs result)))
    :: map (fun output =>
              ConsoleLog (OutputLine
                (JsString.replace (artifact_path output) cwd ".")
                (artifact_size output)))
           (outputs result) in
  match file_text "./index.html" w with
  | inl err =>
      {| effects := report; termination := Uncaught err; final_world := w |}
  | inr html =>
      {| effects := report ++ [FileWrite "./dist/index.html" (updatedHtml html);
                               ConsoleLog HtmlCopied];
         termination := Completed;
         final_world := w |}
  end.

(** build.ts, run with the environment [env] in the directory [cwd]. *)
Definition run_build (env : Env) (cwd : string) (w : World) : Run World :=
  match Bun_build (build_config env) w with
  | (Rejected err, w') =>
      {| effects := []; termination := Uncaught err; final_world := w' |}
  | (Resolved result, w') =>
      if negb (success result) then
        {| effects := ConsoleError "Build failed"
                      :: map ConsoleErrorMessage (logs result);
           termination := Exited 1;
           final_world := w' |}
      else after_success cwd result w'
  end.

End Script.

(** The bundling step failed: the build resolved to an unsuccessful
    result, or rejected. *)
Definition build_failed (outcome : BuildOutcome) : Prop :=
  match outcome with
  | Resolved result => success result = false
  | Rejected _ => True
  end.

(** The files the script wrote, in the order of the writes. *)
Definition writes (es : list Effect) : list (string * string) :=
  omap (fun e => match e with
                 | FileWrite path content => Some (path, content)
                 | _ => None
                 end) es.

(** What the specification asks of dist/index.html, to be compared with
    [updatedHtml]: the input document with the stylesheet reference and
    the script reference rewritten, each where it first stands in the
    input, and everything else copied. *)
Definition rewrite_refs (html : string) : string :=
  match JsString.split_first "/src/index.css" html with
  | None =>
      match JsString.split_first "/src/main.tsx" html with
      | None => html
      | Some (a, b) => a +:+ "/main.js" +:+ b
      end
  | Some (a, b) =>
      match JsString.split_first "/src/main.tsx" a with
      | Some (a1, a2) => a1 +:+ "/main.js" +:+ a2 +:+ "/main.css" +:+ b
      | None =>
          match JsString.split_first "/src/main.tsx" b with
          | Some (b1, b2) => a +:+ "/main.css" +:+ b1 +:+ "/main.js" +:+ b2
          | None => a +:+ "/main.css" +:+ b
          end
      end
  end.

End Build.

(** ** server.ts: the development server *)

Module Server.

(** [const PORT = parseInt(process.env.PORT || "3000")]. *)
Definition PORT (env : Env) : JsNumber.Number :=
  JsNumber.parseInt (env_or env "PORT" "3000").

(** The [define] table of [bundleEntry]. *)
Definition dev_define (env : Env) : gmap string string :=
  <[import_meta_env "MODE" := JSON.stringify "development"]>
  (<[import_meta_env "DEV" := "true"]>
  (<[import_meta_env LOCAL_ACCESS_TOKEN :=
       JSON.stringify (env_or env LOCAL_ACCESS_TOKEN EmptyString)]>
  (<[import_meta_env PUBLIC_API_KEY :=
       JSON.stringify (env_or env PUBLIC_API_KEY EmptyString)]> ∅))).

(** The argument of the [Bun.build] call of [bundleEntry]; it names no
    output directory. *)
Definition dev_config (env : Env) (entryPath : string) : BuildConfig :=
  {| entrypoints := [entryPath];
     outdir := None;
     target := "browser";
     format := "esm";
     splitting := false;
     minify := false;
     define := dev_define env |}.

(** What the server prints. *)
Inductive ConsoleLine :=
| ErrorBundling (filePath : string) (err : JsError)
| FileChanged (filename : string).

(** The state of the server process: the [bundleCache] map, the world
    outside, what was printed, and the calls of [Bun.build] made so far
    with what each gave (oldest first), kept to count and to trace them. *)
Record State (World : Type) := {
  bundleCache : gmap string string;
  world : World;
  console : list ConsoleLine;
  builds : list (BuildConfig * BuildOutcome)
}.
Arguments bundleCache {World} _.
Arguments world {World} _.
Arguments console {World} _.
Arguments builds {World} _.

(** The server as it starts: nothing cached, nothing built. *)
Definition initial {World : Type} (w : World) : State World :=
  {| bundleCache := ∅; world := w; console := []; builds := [] |}.

(** The body of a response: a file streamed from disk, or a text. *)
Inductive Body :=
| FileBody (path : string)
| TextBody (text : string).

Record Response := {
  status : nat;
  content_type : option string;
  body : Body
}.

Section Handlers.
Context {World : Type} `{!Runtime World}.
Variable env : Env.

(** [bundleEntry(entryPath)]: the cached text, or one call of
    [Bun.build] whose first output is cached and returned; an error
    when the build rejects or gives no output. *)
Definition bundleEntry (entryPath : string) (st : State World)
  : (JsError + string) * State World :=
  match bundleCache st !! entryPath with
  | Some bundled => (inr bundled, st)
  | None =>
      let config := dev_config env entryPath in
      let '(outcome, w') := Bun_build config (world st) in
      let st' := {| bundleCache := bundleCache st;
                    world := w';
                    console := console st;
                    builds := builds st ++ [(config, outcome)] |} in
      match outcome with
      | Rejected err => (inl err, st')
      | Resolved result =>
          match outputs result with
          | output :: _ =>
              let bundled := artifact_text output in
              (inr bundled,
               {| bundleCache := <[entryPath := bundled]> (bundleCache st');
                  world := world st';
                  console := console st';
                  builds := builds st' |})
          | [] => (inl (Error "Failed to bundle"), st')
          end
      end
  end.

(** [bundleCache.clear()]. *)
Definition clear (st : State World) : State World :=
  {| bundleCache := ∅;
     world := world st;
     console := console st;
     builds := builds st |}.

(** The callback given to [watch]: [filename] is a string or null. *)
Definition on_watch (eventType : string) (filename : option string)
    (st : State World) : State World :=
  match filename with
  | Some name =>
      if String.eqb name EmptyString then st
      else clear {| bundleCache := bundleCache st;
                    world := world st;
                    console := console st ++ [FileChanged name];
                    builds := builds st |}
  | None => st
  end.

Definition not_found : Response :=
  {| status := 404; content_type := None; body := TextBody "Not Found" |}.

(** The part of [fetch] for a path under [/src/]. *)
Definition fetch_src (path : string) (st : State World)
  : Response * State World :=
  let filePath := "." +:+ path in
  if file_exists filePath (world st) then
    if JsString.endsWith filePath ".css" then
      ({| status := 200; content_type := Some "text/css";
          body := FileBody filePath |}, st)
    else if JsString.endsWith filePath ".tsx"
            || JsString.endsWith filePath ".ts" then
      match bundleEntry filePath st with
      | (inr bundled, st') =>
          ({| status := 200; content_type := Some "application/javascript";
              body := TextBody bundled |}, st')
      | (inl err, st') =>
          ({| status := 500; content_type := None;
              body := TextBody ("Error bundling: " +:+ error_toString err) |},
           {| bundleCache := bundleCache st';
              world := world st';
              console := console st' ++ [ErrorBundling filePath err];
              builds := builds st' |})
      end
    else (not_found, st)
  else (not_found, st).

(** [fetch(req)], on the path of the request URL. *)
Definition fetch (path : string) (st : State World)
  : Response * State World :=
  if String.eqb path "/" then
    ({| status := 200; content_type := None; body := FileBody "index.html" |}, st)
  else if JsString.startsWith path "/public/"
          && file_exists ("." +:+ path) (world st) then
    ({| status := 200; content_type := None; body := FileBody ("." +:+ path) |}, st)
  else if JsString.startsWith path "/src/" then fetch_src path st
  else (not_found, st).

(** The requests [fetch] hands to [bundleEntry]: an existing file
    under [/src/] whose name ends in [.tsx] or [.ts] and not in [.css]. *)
Definition served_by_bundler (path : string) (w : World) : bool :=
  JsString.startsWith path "/src/"
  && file_exists ("." +:+ path) w
  && negb (JsString.endsWith ("." +:+ path) ".css")
  && (JsString.endsWith ("." +:+ path) ".tsx"
      || JsString.endsWith ("." +:+ path) ".ts").

(** What can happen to a running server: a request, a direct call of
    one of the two cache operations, a notification of the watcher, or
    a change of the world outside (a file edited, say). *)
Inductive Op :=
| OpFetch (path : string)
| OpBundleEntry (entryPath : string)
| OpClear
| OpWatch (eventType : string) (filename : option string)
| OpWorld (change : World -> World).

Definition step (op : Op) (st : State World) : State World :=
  match op with
  | OpFetch path => (fetch path st).2
  | OpBundleEntry entryPath => (bundleEntry entryPath st).2
  | OpClear => clear st
  | OpWatch eventType filename => on_watch eventType filename st
  | OpWorld change =>
      {| bundleCache := bundleCache st;
         world := change (world st);
         console := console st;
         builds := builds st |}
  end.

Definition run (ops : list Op) (st : State World) : State World :=
  foldl (fun st op => step op st) st ops.

(** An operation that does not empty the cache. *)
Definition keeps_cache (op : Op) : bool :=
  match op with
  | OpClear => false
  | OpWatch _ (Some name) => String.eqb name EmptyString
  | _ => true
  end.

(** What reaches the server from outside: everything but a direct call of
    [bundleEntry], which only [fetch] makes. *)
Definition from_outside (op : Op) : bool :=
  match op with
  | OpBundleEntry _ => false
  | _ => true
  end.

(** *** The calls as they interleave

    [bundleEntry] is asynchronous: it gives way at [await Bun.build(...)]
    and at [await result.outputs[0].text()], and a request, another call or
    the watcher may run before it goes on.  A call in flight waits at one of
    the two. *)
Inductive Pending :=
| AwaitBuild (entryPath : string) (outcome : BuildOutcome)
| AwaitText (entryPath : string) (bundled : string).

(** The server with its calls in flight, oldest first. *)
Record Running := {
  server : State World;
  pending : list Pending
}.

(** What happens between two awaits. *)
Inductive Event :=
| Call (entryPath : string)
| Resume (i : nat)
| Cleared
| Watched (eventType : string) (filename : option string)
| Changed (change : World -> World).

(** [Call]: [bundleEntry] runs up to its first await, or returns the cached
    text.  [Resume i]: the call in flight at index [i] goes on, up to its
    next await or to its end; at its end after [text()] it stores the
    bundle. *)
Definition react (ev : Event) (r : Running) : Running :=
  let st := server r in
  match ev with
  | Call entryPath =>
      match bundleCache st !! entryPath with
      | Some _ => r
      | None =>
          let config := dev_config env entryPath in
          let '(outcome, w') := Bun_build config (world st) in
          {| server := {| bundleCache := bundleCache st;
                          world := w';
                          console := console st;
                          builds := builds st ++ [(config, outcome)] |};
             pending := pending r ++ [AwaitBuild entryPath outcome] |}
      end
  | Resume i =>
      match pending r !! i with
      | None => r
      | Some (AwaitBuild entryPath (Rejected _)) =>
          {| server := st; pending := delete i (pending r) |}
      | Some (AwaitBuild entryPath (Resolved result)) =>
          match outputs result with
          | output :: _ =>
              {| server := st;
                 pending := <[i := AwaitText entryPath (artifact_text output)]>
                              (pending r) |}
          | [] => {| server := st; pending := delete i (pending r) |}
          end
      | Some (AwaitText entryPath bundled) =>
          {| server := {| bundleCache := <[entryPath := bundled]> (bundleCache st);
                          world := world st;
                          console := console st;
                          builds := builds st |};
             pending := delete i (pending r) |}
      end
  | Cleared => {| server := clear st; pending := pending r |}
  | Watched eventType filename =>
      {| server := on_watch eventType filename st; pending := pending r |}
  | Changed change =>
      {| server := {| bundleCache := bundleCache st;
                      world := change (world st);
                      console := console st;
                      builds := builds st |};
         pending := pending r |}
  end.

Definition react_all (evs : list Event) (r : Running) : Running :=
  foldl (fun r ev => react ev r) r evs.

(** A step that does not empty the cache. *)
Definition keeps_cache_event (ev : Event) : bool :=
  match ev with
  | Cleared => false
  | Watched _ (Some name) => String.eqb name EmptyString
  | _ => true
  end.

(** A step that is not a call of [bundleEntry] on [entryPath]. *)
Definition not_call_on (entryPath : string) (ev : Event) : bool :=
  match ev with
  | Call p => negb (String.eqb p entryPath)
  | _ => true
  end.

End Handlers.




(** The keys [fetch] gives to [bundleEntry]: the module files under
    [./src/]. *)
Definition module_key (key : string) : Prop :=
  JsString.startsWith key "./src/" = true
  ∧ (JsString.endsWith key ".tsx" = true ∨ JsString.endsWith key ".ts" = true).

(** What the bundler was asked for: one entry point, a module file under
    [./src/]. *)
Definition module_build (b : BuildConfig * BuildOutcome) : Prop :=
  ∃ key, entrypoints b.1 = [key] ∧ module_key key.

(** The invariant of a server that is only reached from outside: it has
    cached, and has asked the bundler for, module files under [./src/]
    only. *)
Definition modules_only {World : Type} (st : State World) : Prop :=
  (∀ key, is_Some (bundleCache st !! key) → module_key key)
  ∧ Forall module_build (builds st).

(** The path a call in flight was made on. *)
Definition pending_path (p : Pending) : string :=
  match p with
  | AwaitBuild entryPath _ => entryPath
  | AwaitText entryPath _ => entryPath
  end.

(** No call of [bundleEntry] on [entryPath] is in flight. *)
Definition none_in_flight (entryPath : string) (ps : list Pending) : Prop :=
  Forall (fun p => pending_path p ≠ entryPath) ps.



End Server.

(** ** src/App.tsx: the application root *)

Module App.

(** A JavaScript value as the bundle holds it in place of a symbol:
    [undefined] or a string. *)
Inductive Value :=
| Undefined
| Str (s : string).

(** [import.meta.env], as the component sees it. *)
Record ImportMetaEnv := {
  VITE_SUBSCRIBEDEV_PUBLIC_API_KEY : Value;
  VITE_SUBSCRIBEDEV_LOCAL_ACCESS_TOKEN : Value
}.

(** A rendered element: its tag, its props, its children. *)
Inductive Element :=
| Elem (tag : string) (props : list (string * Value)) (children : list Element).

(** The component [App]. *)
Definition App (env : ImportMetaEnv) : Element :=
  Elem "SubscribeDevProvider"
    [("projectToken", VITE_SUBSCRIBEDEV_PUBLIC_API_KEY env)]
    [Elem "div" [("className", Str "app")]
       [Elem "AIDemo" [] []]].

(** The provider as the set-up notes of the repository show it, with the
    local access token passed as [accessToken]; [App] above does not do
    this. *)
Definition documented_setup (env : ImportMetaEnv) : Element :=
  Elem "SubscribeDevProvider"
    [("projectToken", VITE_SUBSCRIBEDEV_PUBLIC_API_KEY env);
     ("accessToken", VITE_SUBSCRIBEDEV_LOCAL_ACCESS_TOKEN env)]
    [Elem "App" [] []].

(** The props of the root element: the configuration of the provider. *)
Definition provider_props (e : Element) : list (string * Value) :=
  match e with Elem _ props _ => props end.

(** The value a replacement text of a [define] table evaluates to. *)
Definition eval_literal (text : string) : option Value :=
  if String.eqb text "undefined" then Some Undefined
  else Str <$> JSON.parse_string text.

(** [import.meta.env] under a [define] table. *)
Definition import_meta_env_of (table : gmap string string) : option ImportMetaEnv :=
  key ← table !! import_meta_env PUBLIC_API_KEY ≫= eval_literal;
  token ← table !! import_meta_env LOCAL_ACCESS_TOKEN ≫= eval_literal;
  Some {| VITE_SUBSCRIBEDEV_PUBLIC_API_KEY := key;
          VITE_SUBSCRIBEDEV_LOCAL_ACCESS_TOKEN := token |}.

End App.

(** ** A small world for the examples *)

Module Sample.

(** A stand-in for the runtime, used only to run the model on concrete
    inputs: the world is a table of files, and the stand-in bundler gives
    back the text of the entry file as its one output, or an unsuccessful
    result with one log entry when the entry file is missing or holds a
    conflict marker. *)
#[global] Instance runtime : Runtime (gmap string string) := {|
  Bun_build config files :=
    match entrypoints config with
    | [entry] =>
        match files !! entry with
        | Some source =>
            if JsString.includes source "<<<<<<<" then
              (Resolved {| success := false;
                           outputs := [];
                           logs := [{| message_level := "error";
                                       message_text := "Unexpected << in " +:+ entry |}] |},
               files)
            else
            (Resolved {| success := true;
                         outputs := [{| artifact_path := "./dist/main.js";
                                        artifact_size := N.of_nat (String.length source);
                                        artifact_text := source |}];
                         logs := [] |}, files)
        | None =>
            (Resolved {| success := false;
                         outputs := [];
                         logs := [{| message_level := "error";
                                     message_text := "Could not resolve: " +:+ entry |}] |},
             files)
        end
    | _ => (Rejected (Error "Expected one entrypoint"), files)
    end;
  file_exists path files := bool_decide (is_Some (files !! path));
  file_text path files :=
    match files !! path with
    | Some text => inr text
    | None => inl (Error ("ENOENT: " +:+ path))
    end
|}.

(** A runtime whose bundler rejects every build, as [Bun.build] does on a
    failure when it is not told otherwise, and that has no files. *)
Definition rejecting : Runtime unit := {|
  Bun_build config w :=
    (Rejected {| err_name := "AggregateError"; err_message := "Bundle failed" |}, w);
  file_exists path w := false;
  file_text path w := inl (Error ("ENOENT: " +:+ path))
|}.

(** A small source tree. *)
Definition files : gmap string string :=
  {[ "./src/main.tsx" := "export default 1";
     "./src/index.css" := "body { margin: 0 }";
     "./public/logo.svg" := "<svg/>";
     "./src/notes.md" := "notes" ]}.

End Sample.

(** * Properties *)

(** ** Facts about JavaScript strings *)

Module JsStringFacts.
Import JsString.

Lemma app_nil_l (s : string) : EmptyString +:+ s = s.
Proof. reflexivity. Qed.

Lemma app_cons (c : ascii) (a b : string) :
  String c a +:+ b = String c (a +:+ b).
Proof. reflexivity. Qed.

Lemma app_nil_r (s : string) : s +:+ EmptyString = s.
Proof. induction s as [|c s IH]; [done|]. by rewrite app_cons, IH. Qed.

Lemma app_assoc (a b c : string) : (a +:+ b) +:+ c = a +:+ b +:+ c.
Proof. induction a as [|x a IH]; [done|]. by rewrite !app_cons, IH. Qed.

Lemma length_app (a b : string) :
  String.length (a +:+ b) = String.length a + String.length b.
Proof. induction a as [|x a IH]; [done|]. rewrite app_cons. simpl. by rewrite IH. Qed.

Lemma drop_0 (s : string) : drop 0 s = s.
Proof. by destruct s. Qed.

Lemma take_drop (n : nat) (s : string) : take n s +:+ drop n s = s.
Proof.
  revert s. induction n as [|n IH]; intros [|c s]; try done.
  simpl. by rewrite app_cons, IH.
Qed.

Lemma drop_app_length (p y : string) : drop (String.length p) (p +:+ y) = y.
Proof. induction p as [|c p IH]; [apply drop_0|]. by rewrite app_cons. Qed.

Lemma take_app_length (p y : string) : take (String.length p) (p +:+ y) = p.
Proof. induction p as [|c p IH]; [done|]. rewrite app_cons. simpl. by rewrite IH. Qed.

Lemma startsWith_nil (s : string) : startsWith s EmptyString = true.
Proof. by destruct s. Qed.

Lemma startsWith_app (p y : string) : startsWith (p +:+ y) p = true.
Proof.
  induction p as [|c p IH]; [apply startsWith_nil|].
  rewrite app_cons. simpl. by rewrite Ascii.eqb_refl.
Qed.

(** A string that starts with [p] is [p] followed by the rest. *)
Lemma startsWith_split (s p : string) :
  startsWith s p = true → s = p +:+ drop (String.length p) s.
Proof.
  revert s. induction p as [|c p IH]; intros s H.
  - by rewrite app_nil_l, drop_0.
  - destruct s as [|d s]; [done|]. simpl in H.
    destruct (Ascii.eqb_spec c d) as [->|]; [|done].
    rewrite app_cons. simpl. by rewrite <- IH.
Qed.

Lemma startsWith_drop_app (s p z : string) :
  startsWith s p = true →
  drop (String.length p) (s +:+ z) = drop (String.length p) s +:+ z.
Proof.
  intros H. rewrite (startsWith_split s p H) at 1.
  by rewrite app_assoc, drop_app_length.
Qed.

(** *** [indexOf], [split_first] and [replace] *)

(** [indexOf] gives a position where the pattern stands, and the least. *)
Lemma indexOf_Some (s p : string) (i : nat) :
  indexOf s p = Some i →
  startsWith (drop i s) p = true
  ∧ ∀ j, j < i → startsWith (drop j s) p = false.
Proof.
  revert i. induction s as [|c s IH]; intros i; cbn [indexOf].
  - destruct (startsWith EmptyString p) eqn:E; [|done].
    intros [= <-]. split; [exact E|lia].
  - destruct (startsWith (String c s) p) eqn:E.
    + intros [= <-]. split; [exact E|lia].
    + destruct (indexOf s p) as [k|] eqn:Ek; [|done].
      intros [= <-]. destruct (IH k eq_refl) as [H1 H2].
      split; [exact H1|]. intros [|j] Hj; [exact E|]. apply H2. lia.
Qed.

(** [indexOf] gives -1 only when the pattern stands nowhere. *)
Lemma indexOf_None (s p : string) (j : nat) :
  indexOf s p = None → startsWith (drop j s) p = false.
Proof.
  revert j. induction s as [|c s IH]; intros j; cbn [indexOf].
  - destruct (startsWith EmptyString p) eqn:E; [done|].
    intros _. destruct j; exact E.
  - destruct (startsWith (String c s) p) eqn:E; [done|].
    destruct (indexOf s p) eqn:Ek; [done|]. intros _.
    destruct j as [|j]; [exact E|]. by apply IH.
Qed.

(** [split_first] cuts at the position [indexOf] finds. *)
Lemma split_first_indexOf (p s : string) :
  split_first p s =
  (λ pos, (take pos s, drop (pos + String.length p) s)) <$> indexOf s p.
Proof.
  induction s as [|c s IH]; cbn [split_first indexOf].
  - by destruct (startsWith EmptyString p).
  - destruct (startsWith (String c s) p); [done|].
    rewrite IH. by destruct (indexOf s p).
Qed.

Lemma split_first_Some (p s a b : string) :
  split_first p s = Some (a, b) →
  s = a +:+ p +:+ b ∧ indexOf s p = Some (String.length a).
Proof.
  revert a b. induction s as [|c s IH]; intros a b; cbn [split_first indexOf].
  - destruct (startsWith EmptyString p) eqn:E; [|done].
    intros [= <- <-]. split; [|done]. by apply startsWith_split.
  - destruct (startsWith (String c s) p) eqn:E.
    + intros [= <- <-]. split; [|done]. by apply startsWith_split.
    + destruct (split_first p s) as [[a' b']|] eqn:Es; [|done].
      intros [= <- <-]. destruct (IH a' b' eq_refl) as [H1 H2].
      split; [by rewrite app_cons, <- H1|]. by rewrite H2.
Qed.

Lemma split_first_None (p s : string) :
  split_first p s = None → indexOf s p = None.
Proof.
  rewrite split_first_indexOf. by destruct (indexOf s p).
Qed.

(** [replace] puts the replacement between the two parts of the split. *)
Lemma replace_split (s p r : string) :
  replace s p r =
  match split_first p s with
  | Some (a, b) => a +:+ r +:+ b
  | None => s
  end.
Proof.
  unfold replace. rewrite split_first_indexOf. by destruct (indexOf s p).
Qed.

Lemma occurrences_no_split (p s : string) :
  split_first p s = None → occurrences p s = 0.
Proof.
  induction s as [|c s IH]; cbn [split_first occurrences].
  - by destruct (startsWith EmptyString p).
  - destruct (startsWith (String c s) p); [done|].
    destruct (split_first p s) as [[]|]; [done|]. intros _. by rewrite IH.
Qed.

(** *** Clashing strings *)

Lemma clash_startsWith (p m y : string) :
  clash p m = true → startsWith (m +:+ y) p = false.
Proof.
  revert m. induction p as [|c p IH]; intros [|d m]; try done.
  rewrite app_cons. simpl. destruct (Ascii.eqb c d); [apply IH | done].
Qed.

(** A pattern all of whose suffixes clash with [m] stands at the head of
    [x +:+ m +:+ y] only if it stands at the head of [x]. *)
Lemma startsWith_before (p m x y : string) :
  suffixes_clash p m = true →
  startsWith (x +:+ m +:+ y) p = startsWith x p.
Proof.
  revert p. induction x as [|c x IH]; intros [|d p] H;
    [by rewrite !startsWith_nil | | by rewrite !startsWith_nil |].
  - rewrite app_nil_l. simpl in H. apply andb_true_iff in H as [H _].
    by apply clash_startsWith.
  - rewrite app_cons. simpl. simpl in H. apply andb_true_iff in H as [_ H].
    destruct (Ascii.eqb d c); [by apply IH | done].
Qed.

Lemma inert_nonempty (p m : string) : inert p m = true → p ≠ EmptyString.
Proof. by destruct p. Qed.

Lemma startsWith_inert (p m : string) (c : ascii) (x y : string) :
  inert p m = true →
  startsWith (String c (x +:+ m +:+ y)) p = startsWith (String c x) p.
Proof.
  destruct p as [|d p]; [done|]. simpl. intros [H _]%andb_true_iff.
  destruct (Ascii.eqb d c); [by apply startsWith_before | done].
Qed.

(** No occurrence starts inside [m]. *)
Lemma split_first_inside (p m y : string) :
  clash_suffixes p m = true →
  split_first p (m +:+ y) =
  match split_first p y with
  | Some (a, b) => Some (m +:+ a, b)
  | None => None
  end.
Proof.
  induction m as [|c m IH]; intros H.
  - rewrite app_nil_l. by destruct (split_first p y) as [[]|].
  - simpl in H. apply andb_true_iff in H as [H1 H2].
    pose proof (clash_startsWith _ _ y H1) as E. rewrite app_cons in E.
    rewrite app_cons. cbn [split_first]. rewrite E, (IH H2).
    by destruct (split_first p y) as [[]|].
Qed.

Lemma occurrences_inside (p m y : string) :
  clash_suffixes p m = true → occurrences p (m +:+ y) = occurrences p y.
Proof.
  induction m as [|c m IH]; intros H; [done|].
  simpl in H. apply andb_true_iff in H as [H1 H2].
  pose proof (clash_startsWith _ _ y H1) as E. rewrite app_cons in E.
  rewrite app_cons. cbn [occurrences]. by rewrite E, (IH H2).
Qed.

(** The first occurrence of [p] in [x +:+ m +:+ y], for [m] inert: the
    one in [x] if there is one, else the one in [y]. *)
Lemma split_first_inert (p m x y : string) :
  inert p m = true →
  split_first p (x +:+ m +:+ y) =
  match split_first p x with
  | Some (a, b) => Some (a, b +:+ m +:+ y)
  | None =>
      match split_first p y with
      | Some (a, b) => Some (x +:+ m +:+ a, b)
      | None => None
      end
  end.
Proof.
  intros H. induction x as [|c x IH].
  - rewrite app_nil_l. destruct p as [|d p]; [done|].
    simpl in H. apply andb_true_iff in H as [_ H].
    rewrite (split_first_inside _ _ _ H). simpl.
    by destruct (split_first (String d p) y) as [[]|].
  - rewrite (app_cons c x). cbn [split_first].
    rewrite (startsWith_inert _ _ _ _ _ H).
    destruct (startsWith (String c x) p) eqn:E.
    + change (String c (x +:+ m +:+ y)) with (String c x +:+ m +:+ y).
      by rewrite (startsWith_drop_app _ _ _ E).
    + rewrite IH.
      destruct (split_first p x) as [[a b]|]; [done|].
      by destruct (split_first p y) as [[a b]|].
Qed.

Lemma occurrences_inert (p m x y : string) :
  inert p m = true →
  occurrences p (x +:+ m +:+ y) = occurrences p x + occurrences p y.
Proof.
  intros H. induction x as [|c x IH].
  - rewrite app_nil_l. destruct p as [|d p]; [done|].
    simpl in H. apply andb_true_iff in H as [_ H].
    by rewrite (occurrences_inside _ _ _ H).
  - rewrite (app_cons c x). cbn [occurrences].
    rewrite (startsWith_inert _ _ _ _ _ H), IH. lia.
Qed.

Lemma occurrences_self (p x y : string) :
  self_inert p = true →
  occurrences p (x +:+ p +:+ y) = occurrences p x + 1 + occurrences p y.
Proof.
  intros H. destruct p as [|d p]; [done|].
  simpl in H. apply andb_true_iff in H as [H1 H2].
  set (q := String d p) in *.
  induction x as [|c x IH].
  - rewrite app_nil_l.
    pose proof (startsWith_app q y) as E.
    unfold q in E |- * at 2. rewrite app_cons in E |- *. fold q in E.
    cbn [occurrences]. rewrite E.
    rewrite (occurrences_inside _ _ _ H2).
    reflexivity.
  - rewrite (app_cons c x). cbn [occurrences]. rewrite IH.
    assert (startsWith (String c (x +:+ q +:+ y)) q = startsWith (String c x) q)
      as ->; [|lia].
    unfold q at 2 3. cbn [startsWith].
    destruct (Ascii.eqb d c); [by apply startsWith_before | done].
Qed.

(** The first occurrence of [p] in [x +:+ p +:+ y], for [p] that does not
    overlap itself: the one in [x] if there is one, else the [p] shown. *)
Lemma split_first_self (p x y : string) :
  self_inert p = true →
  split_first p (x +:+ p +:+ y) =
  match split_first p x with
  | Some (a, b) => Some (a, b +:+ p +:+ y)
  | None => Some (x, y)
  end.
Proof.
  intros H. destruct p as [|d p]; [done|].
  simpl in H. apply andb_true_iff in H as [H1 _].
  set (q := String d p) in *.
  induction x as [|c x IH].
  - rewrite app_nil_l.
    assert (split_first q EmptyString = None) as -> by done.
    pose proof (startsWith_app q y) as E.
    destruct (q +:+ y) as [|c s] eqn:Eq; [done|].
    cbn [split_first]. rewrite E, <- Eq. by rewrite drop_app_length.
  - rewrite (app_cons c x). cbn [split_first].
    assert (startsWith (String c (x +:+ q +:+ y)) q = startsWith (String c x) q)
      as ->.
    { unfold q at 2 3. cbn [startsWith].
      destruct (Ascii.eqb d c); [by apply startsWith_before | done]. }
    destruct (startsWith (String c x) q) eqn:E.
    + change (String c (x +:+ q +:+ y)) with (String c x +:+ q +:+ y).
      by rewrite (startsWith_drop_app _ _ _ E).
    + rewrite IH. by destruct (split_first q x) as [[a b]|].
Qed.

Lemma includes_split_first (p s : string) :
  includes s p = false → split_first p s = None.
Proof.
  unfold includes. rewrite split_first_indexOf. by destruct (indexOf s p).
Qed.

(** Replacing the first occurrence of [p] by a text inert for [p] leaves
    one occurrence fewer. *)
Lemma occurrences_replace_self (s p r : string) :
  self_inert p = true → inert p r = true →
  occurrences p (replace s p r) = pred (occurrences p s).
Proof.
  intros Hp Hr. rewrite replace_split.
  destruct (split_first p s) as [[a b]|] eqn:E.
  - apply split_first_Some in E as [-> _].
    rewrite occurrences_inert, occurrences_self by done. lia.
  - by rewrite occurrences_no_split.
Qed.

(** Replacing a text inert for [p] by another one keeps the occurrences
    of [p]. *)
Lemma occurrences_replace_other (s p q r : string) :
  inert p q = true → inert p r = true →
  occurrences p (replace s q r) = occurrences p s.
Proof.
  intros Hq Hr. rewrite replace_split.
  destruct (split_first q s) as [[a b]|] eqn:E; [|done].
  apply split_first_Some in E as [-> _].
  by rewrite !occurrences_inert.
Qed.

End JsStringFacts.

(** ** Facts about JSON.stringify *)

Module JSONFacts.
Import JSON.

(** Reading back an escaped code unit gives the code unit. *)
Lemma parse_quote_char (c : ascii) (rest : string) :
  parse_chars (quote_char c +:+ rest) = String c <$> parse_chars rest.
Proof. destruct c as [[] [] [] [] [] [] [] []]; reflexivity. Qed.

Lemma parse_quote_chars (s : string) : parse_chars (quote_chars s) = Some s.
Proof.
  induction s as [|c s IH]; [done|].
  cbn [quote_chars]. by rewrite parse_quote_char, IH.
Qed.

(** [JSON.parse(JSON.stringify(s)) === s]: the literal denotes [s]. *)
Lemma parse_stringify (s : string) : parse_string (stringify s) = Some s.
Proof. apply parse_quote_chars. Qed.

(** A string literal is never the text [undefined]. *)
Lemma stringify_not_undefined (s : string) : stringify s ≠ "undefined".
Proof. done. Qed.

End JSONFacts.

(** ** The production build *)

Module BuildFacts.
Import Build.

(** Two symbols of the table are different keys. *)
Ltac key_ne := by vm_compute.

Ltac table_lookup :=
  unfold build_define;
  repeat first [ rewrite lookup_insert_eq | rewrite lookup_insert_ne by key_ne ].

Lemma env_or_empty (env : Env) (name : string) :
  env_or env name EmptyString = default EmptyString (env !! name).
Proof.
  unfold env_or. destruct (env !! name) as [v|]; [|done].
  simpl. by destruct (String.eqb_spec v EmptyString).
Qed.

Lemma build_define_public (env : Env) :
  build_define env !! import_meta_env PUBLIC_API_KEY
  = Some (JSON.stringify (default EmptyString (env !! PUBLIC_API_KEY))).
Proof. table_lookup. by rewrite env_or_empty. Qed.

Lemma build_define_local (env : Env) :
  build_define env !! import_meta_env LOCAL_ACCESS_TOKEN = Some "undefined".
Proof. by table_lookup. Qed.

(** The table reads the environment at the public key only. *)
Lemma build_define_agree (env1 env2 : Env) :
  env1 !! PUBLIC_API_KEY = env2 !! PUBLIC_API_KEY →
  build_define env1 = build_define env2.
Proof. intros H. unfold build_define, env_or. by rewrite H. Qed.

Lemma build_config_agree (env1 env2 : Env) :
  env1 !! PUBLIC_API_KEY = env2 !! PUBLIC_API_KEY →
  build_config env1 = build_config env2.
Proof. intros H. unfold build_config. by rewrite (build_define_agree _ _ H). Qed.

Lemma writes_app (es1 es2 : list Effect) :
  writes (es1 ++ es2) = writes es1 ++ writes es2.
Proof. apply omap_app. Qed.

Lemma writes_console_log {A : Type} (line : A → LogLine) (xs : list A) :
  writes (map (λ x, ConsoleLog (line x)) xs) = [].
Proof. by induction xs. Qed.

Lemma writes_console_error (messages : list BuildMessage) :
  writes (map ConsoleErrorMessage messages) = [].
Proof. by induction messages. Qed.

(** The two replacements, one after the other, rewrite each reference
    where it first stands in the document. *)
Lemma updatedHtml_rewrite_refs (html : string) :
  updatedHtml html = rewrite_refs html.
Proof.
  unfold updatedHtml, rewrite_refs.
  rewrite (JsStringFacts.replace_split html).
  destruct (JsString.split_first "/src/index.css" html) as [[a b]|];
    rewrite JsStringFacts.replace_split; [|done].
  rewrite (JsStringFacts.split_first_inert "/src/main.tsx" "/main.css")
    by reflexivity.
  destruct (JsString.split_first "/src/main.tsx" a) as [[a1 a2]|]; [done|].
  destruct (JsString.split_first "/src/main.tsx" b) as [[b1 b2]|]; [|done].
  by rewrite !JsStringFacts.app_assoc.
Qed.

(** A document that names the stylesheet and then the script: both names
    are rewritten and the three stretches of text around them are copied,
    with whatever further mentions they hold. *)
Lemma rewrite_refs_stylesheet_then_script (a b c : string) :
  JsString.includes a "/src/index.css" = false →
  JsString.includes a "/src/main.tsx" = false →
  JsString.includes b "/src/main.tsx" = false →
  rewrite_refs (a +:+ "/src/index.css" +:+ b +:+ "/src/main.tsx" +:+ c)
  = a +:+ "/main.css" +:+ b +:+ "/main.js" +:+ c.
Proof.
  intros Ha Ha' Hb. unfold rewrite_refs.
  rewrite (JsStringFacts.split_first_self "/src/index.css") by reflexivity.
  rewrite (JsStringFacts.includes_split_first _ _ Ha).
  rewrite (JsStringFacts.includes_split_first _ _ Ha').
  rewrite (JsStringFacts.split_first_self "/src/main.tsx") by reflexivity.
  by rewrite (JsStringFacts.includes_split_first _ _ Hb).
Qed.

(** The same with the script named first. *)
Lemma rewrite_refs_script_then_stylesheet (a b c : string) :
  JsString.includes a "/src/index.css" = false →
  JsString.includes a "/src/main.tsx" = false →
  JsString.includes b "/src/index.css" = false →
  rewrite_refs (a +:+ "/src/main.tsx" +:+ b +:+ "/src/index.css" +:+ c)
  = a +:+ "/main.js" +:+ b +:+ "/main.css" +:+ c.
Proof.
  intros Ha Ha' Hb. unfold rewrite_refs.
  rewrite (JsStringFacts.split_first_inert "/src/index.css" "/src/main.tsx")
    by reflexivity.
  rewrite (JsStringFacts.includes_split_first _ _ Ha).
  rewrite (JsStringFacts.split_first_self "/src/index.css") by reflexivity.
  rewrite (JsStringFacts.includes_split_first _ _ Hb).
  rewrite (JsStringFacts.split_first_self "/src/main.tsx") by reflexivity.
  by rewrite (JsStringFacts.includes_split_first _ _ Ha').
Qed.

(** A document that names neither is copied as it is. *)
Lemma rewrite_refs_no_reference (html : string) :
  JsString.includes html "/src/index.css" = false →
  JsString.includes html "/src/main.tsx" = false →
  rewrite_refs html = html.
Proof.
  intros H1 H2. unfold rewrite_refs.
  by rewrite (JsStringFacts.includes_split_first _ _ H1),
             (JsStringFacts.includes_split_first _ _ H2).
Qed.

Lemma occurrences_css_updatedHtml (html : string) :
  JsString.occurrences "/src/index.css" (updatedHtml html)
  = pred (JsString.occurrences "/src/index.css" html).
Proof.
  unfold updatedHtml.
  rewrite JsStringFacts.occurrences_replace_other by reflexivity.
  by rewrite JsStringFacts.occurrences_replace_self by reflexivity.
Qed.

Lemma occurrences_tsx_updatedHtml (html : string) :
  JsString.occurrences "/src/main.tsx" (updatedHtml html)
  = pred (JsString.occurrences "/src/main.tsx" html).
Proof.
  unfold updatedHtml.
  rewrite JsStringFacts.occurrences_replace_self by reflexivity.
  by rewrite JsStringFacts.occurrences_replace_other by reflexivity.
Qed.

Section Script.
Context {World : Type} `{!Runtime World}.

Lemma after_success_writes (cwd : string) (result : BuildResult)
    (w : World) (html : string) :
  file_text "./index.html" w = inr html →
  writes (effects (after_success cwd result w))
  = [("./dist/index.html", updatedHtml html)]
  ∧ termination (after_success cwd result w) = Completed.
Proof.
  intros H. unfold after_success. rewrite H. simpl. split; [|done].
  rewrite writes_app. cbn [writes omap].
  rewrite (writes_console_log
    (λ output, OutputLine (JsString.replace (artifact_path output) cwd ".")
                          (artifact_size output))).
  done.
Qed.

Lemma run_build_success (env : Env) (cwd : string) (w w' : World)
    (result : BuildResult) :
  Bun_build (build_config env) w = (Resolved result, w') →
  success result = true →
  run_build env cwd w = after_success cwd result w'.
Proof. intros H Hs. unfold run_build. by rewrite H, Hs. Qed.

End Script.

End BuildFacts.

(** ** The model at work *)

Module Examples.
Import Sample.

Example replace_first_only :
  JsString.replace "a/src/index.css b/src/index.css" "/src/index.css" "/main.css"
  = "a/main.css b/src/index.css".
Proof. reflexivity. Qed.

Example replace_absent :
  JsString.replace "<html></html>" "/src/index.css" "/main.css" = "<html></html>".
Proof. reflexivity. Qed.

Example endsWith_tsx : JsString.endsWith "./src/main.tsx" ".tsx" = true.
Proof. reflexivity. Qed.

Example endsWith_longer : JsString.endsWith "ts" ".ts" = false.
Proof. reflexivity. Qed.

Example stringify_plain :
  JSON.stringify "pub_123"
  = String JSON.dquote ("pub_123" +:+ String JSON.dquote EmptyString).
Proof. reflexivity. Qed.

Example stringify_escapes :
  JSON.stringify (String JSON.dquote (String "010" (String "001" "\")))
  = String JSON.dquote
      ("\" +:+ String JSON.dquote ("\n\u0001\\" +:+ String JSON.dquote EmptyString)).
Proof. reflexivity. Qed.

Example error_text : error_toString (Error "Failed to bundle") = "Error: Failed to bundle".
Proof. reflexivity. Qed.

Example fetch_root :
  (Server.fetch ∅ "/" (Server.initial files)).1
  = {| Server.status := 200; Server.content_type := None;
       Server.body := Server.FileBody "index.html" |}.
Proof. reflexivity. Qed.

Example fetch_public :
  (Server.fetch ∅ "/public/logo.svg" (Server.initial files)).1
  = {| Server.status := 200; Server.content_type := None;
       Server.body := Server.FileBody "./public/logo.svg" |}.
Proof. reflexivity. Qed.

Example fetch_css :
  (Server.fetch ∅ "/src/index.css" (Server.initial files)).1
  = {| Server.status := 200; Server.content_type := Some "text/css";
       Server.body := Server.FileBody "./src/index.css" |}.
Proof. reflexivity. Qed.

Example fetch_module :
  (Server.fetch ∅ "/src/main.tsx" (Server.initial files)).1
  = {| Server.status := 200; Server.content_type := Some "application/javascript";
       Server.body := Server.TextBody "export default 1" |}.
Proof. reflexivity. Qed.

Example fetch_other_extension :
  (Server.fetch ∅ "/src/notes.md" (Server.initial files)).1 = Server.not_found.
Proof. reflexivity. Qed.

Example fetch_nonexistent :
  (Server.fetch ∅ "/nonexistent/path" (Server.initial files)).1
  = {| Server.status := 404; Server.content_type := None;
       Server.body := Server.TextBody "Not Found" |}.
Proof. reflexivity. Qed.

(** Two requests for one module in flight together both miss the cache
    and both call the bundler. *)
Example two_calls_in_flight :
  length (Server.builds (Server.server
    (Server.react_all ∅
       [Server.Call "./src/main.tsx"; Server.Call "./src/main.tsx";
        Server.Resume 0; Server.Resume 0; Server.Resume 0; Server.Resume 0]
       {| Server.server := Server.initial files; Server.pending := [] |}))) = 2.
Proof. reflexivity. Qed.

(** The development server does inject the token; the production build
    does not. *)
Example dev_define_token :
  Server.dev_define {[ LOCAL_ACCESS_TOKEN := "eyJ" ]}
    !! import_meta_env LOCAL_ACCESS_TOKEN
  = Some (JSON.stringify "eyJ").
Proof. reflexivity. Qed.

Example build_define_token :
  Build.build_define {[ LOCAL_ACCESS_TOKEN := "eyJ" ]}
    !! import_meta_env LOCAL_ACCESS_TOKEN
  = Some "undefined".
Proof. reflexivity. Qed.

End Examples.

(** ** The claims about the production build *)

(** C1.  Whatever the environment holds for the local access token, the
    table of build.ts maps the token symbol to the fixed text [undefined],
    which evaluates to the undefined value and is never the string literal
    of the environment value (what the development server puts there).
    The script run with the token set to any value [v] passes the same
    configuration to the bundler and has the same effects, the same end
    and the same final world as the script run with the token unset:
    nothing of the production build, its output included, depends on that
    variable, and so nothing of the output comes from its value. *)
Theorem production_build_ignores_local_token
    {World : Type} `{!Runtime World} (env : Env) (v cwd : string) (w : World) :
  Build.build_define (<[LOCAL_ACCESS_TOKEN := v]> env)
    !! import_meta_env LOCAL_ACCESS_TOKEN = Some "undefined"
  ∧ App.eval_literal "undefined" = Some App.Undefined
  ∧ Build.build_define (<[LOCAL_ACCESS_TOKEN := v]> env)
      !! import_meta_env LOCAL_ACCESS_TOKEN
    ≠ Some (JSON.stringify v)
  ∧ Build.build_config (<[LOCAL_ACCESS_TOKEN := v]> env)
    = Build.build_config (delete LOCAL_ACCESS_TOKEN env)
  ∧ Build.run_build (<[LOCAL_ACCESS_TOKEN := v]> env) cwd w
    = Build.run_build (delete LOCAL_ACCESS_TOKEN env) cwd w.
Proof.
  assert (Build.build_config (<[LOCAL_ACCESS_TOKEN := v]> env)
          = Build.build_config (delete LOCAL_ACCESS_TOKEN env)) as Hcfg.
  { apply BuildFacts.build_config_agree.
    rewrite lookup_insert_ne, lookup_delete_ne by BuildFacts.key_ne. done. }
  split; [apply BuildFacts.build_define_local|].
  split; [done|].
  split; [by rewrite BuildFacts.build_define_local|].
  split; [exact Hcfg|].
  unfold Build.run_build. by rewrite Hcfg.
Qed.

(** C4, as amended.  When the bundling step of the production build
    fails, the process
    ends with a non-zero exit status and the script writes no file, so no
    dist/index.html.  When the build resolved to an unsuccessful result the
    script first prints [Build failed] and every entry of the logs to the
    error console, then calls [process.exit(1)]; when the build rejected,
    the script prints nothing itself and the error ends the process. *)
Theorem failed_build_exits_without_artifact
    {World : Type} `{!Runtime World} (env : Env) (cwd : string) (w w' : World)
    (outcome : BuildOutcome) :
  Bun_build (Build.build_config env) w = (outcome, w') →
  Build.build_failed outcome →
  let r := Build.run_build env cwd w in
  Build.exit_status (Build.termination r) ≠ 0%Z
  ∧ Build.writes (Build.effects r) = []
  ∧ match outcome with
    | Resolved result =>
        Build.effects r
        = Build.ConsoleError "Build failed"
          :: map Build.ConsoleErrorMessage (logs result)
        ∧ Build.termination r = Build.Exited 1
    | Rejected err =>
        Build.effects r = [] ∧ Build.termination r = Build.Uncaught err
    end.
Proof.
  intros H Hfail. unfold Build.run_build. rewrite H.
  destruct outcome as [result|err]; simpl in *.
  - rewrite Hfail. simpl. split; [done|]. split; [|done].
    apply BuildFacts.writes_console_error.
  - done.
Qed.

(** C4 at work: the entry file is missing, the stand-in bundler reports one
    error, and the script prints it, exits with status 1 and writes nothing. *)
Lemma failed_build_exits_without_artifact_witness :
  let files : gmap string string := {[ "./index.html" := "<html></html>" ]} in
  let r := Build.run_build (∅ : Env) "/app" files in
  Build.exit_status (Build.termination r) ≠ 0%Z
  ∧ Build.writes (Build.effects r) = []
  ∧ Build.effects r
    = [Build.ConsoleError "Build failed";
       Build.ConsoleErrorMessage
         {| message_level := "error";
            message_text := "Could not resolve: ./src/main.tsx" |}]
  ∧ Build.termination r = Build.Exited 1.
Proof.
  exact (failed_build_exits_without_artifact (∅ : Env) "/app"
           ({[ "./index.html" := "<html></html>" ]} : gmap string string)
           _ _ eq_refl eq_refl).
Defined.

(** C7.  The table of build.ts maps the public API key symbol to the JSON
    string literal of the value of its environment variable, to the literal
    of the empty string (two quotes) when the variable is unset; read back,
    that literal is the value.  It maps DEV to [false], PROD to [true] and
    MODE to the string literal of [production]. *)
Theorem build_define_public_key_and_mode (env : Env) :
  Build.build_define env !! import_meta_env PUBLIC_API_KEY
  = Some match env !! PUBLIC_API_KEY with
         | Some value => JSON.stringify value
         | None => String JSON.dquote (String JSON.dquote EmptyString)
         end
  ∧ (Build.build_define env !! import_meta_env PUBLIC_API_KEY
       ≫= JSON.parse_string)
    = Some (default EmptyString (env !! PUBLIC_API_KEY))
  ∧ Build.build_define env !! import_meta_env "DEV" = Some "false"
  ∧ Build.build_define env !! import_meta_env "PROD" = Some "true"
  ∧ Build.build_define env !! import_meta_env "MODE"
    = Some (String JSON.dquote ("production" +:+ String JSON.dquote EmptyString)).
Proof.
  rewrite BuildFacts.build_define_public.
  split; [by destruct (env !! PUBLIC_API_KEY)|].
  split; [simpl; apply JSONFacts.parse_stringify|].
  repeat split; by BuildFacts.table_lookup.
Qed.

(** C8.  When the bundling succeeds and index.html can be read, the script
    runs to its end and writes one file, dist/index.html: the input
    document with [/src/index.css] rewritten to [/main.css] and
    [/src/main.tsx] rewritten to [/main.js], each where it first stands in
    the input, and everything else copied as it is. *)
Theorem production_build_writes_rewritten_html
    {World : Type} `{!Runtime World} (env : Env) (cwd : string) (w w' : World)
    (result : BuildResult) (html : string) :
  Bun_build (Build.build_config env) w = (Resolved result, w') →
  success result = true →
  file_text "./index.html" w' = inr html →
  let r := Build.run_build env cwd w in
  Build.writes (Build.effects r) = [("./dist/index.html", Build.rewrite_refs html)]
  ∧ Build.termination r = Build.Completed.
Proof.
  intros H Hs Hf. simpl.
  rewrite (BuildFacts.run_build_success _ _ _ _ _ H Hs).
  rewrite <- BuildFacts.updatedHtml_rewrite_refs.
  by apply BuildFacts.after_success_writes.
Qed.

(** C8 at work on a small document. *)
Lemma production_build_writes_rewritten_html_witness :
  let files : gmap string string :=
    {[ "./src/main.tsx" := "export default 1";
       "./index.html" :=
         "<link rel=stylesheet href=/src/index.css><script src=/src/main.tsx></script>" ]} in
  let r := Build.run_build (∅ : Env) "/app" files in
  Build.writes (Build.effects r)
  = [("./dist/index.html",
      "<link rel=stylesheet href=/main.css><script src=/main.js></script>")]
  ∧ Build.termination r = Build.Completed.
Proof.
  exact (production_build_writes_rewritten_html (∅ : Env) "/app"
           ({[ "./src/main.tsx" := "export default 1";
               "./index.html" :=
                 "<link rel=stylesheet href=/src/index.css><script src=/src/main.tsx></script>" ]}
             : gmap string string)
           _ _ _ eq_refl eq_refl eq_refl).
Defined.

(** ** The development server *)

Module ServerFacts.
Import Server.

Section Handlers.
Context {World : Type} `{!Runtime World}.
Variable env : Env.

(** A cached path is answered from the cache, and nothing changes. *)
Lemma bundleEntry_hit (entryPath text : string) (st : State World) :
  bundleCache st !! entryPath = Some text →
  bundleEntry env entryPath st = (inr text, st).
Proof. intros H. unfold bundleEntry. by rewrite H. Qed.

(** A path that is not cached costs one call of the bundler. *)
Lemma bundleEntry_miss (entryPath : string) (st : State World) :
  bundleCache st !! entryPath = None →
  builds (bundleEntry env entryPath st).2
  = builds st ++ [(dev_config env entryPath,
                   (Bun_build (dev_config env entryPath) (world st)).1)].
Proof.
  intros H. unfold bundleEntry. rewrite H.
  destruct (Bun_build _ _) as [[result|err] w']; [|done].
  by destruct (outputs result).
Qed.

(** What [bundleEntry] returns is in the cache afterwards. *)
Lemma bundleEntry_ok (entryPath text : string) (st st' : State World) :
  bundleEntry env entryPath st = (inr text, st') →
  bundleCache st' !! entryPath = Some text.
Proof.
  unfold bundleEntry.
  destruct (bundleCache st !! entryPath) as [cached|] eqn:E.
  - by intros [= <- <-].
  - destruct (Bun_build _ _) as [[result|err] w']; [|done].
    destruct (outputs result) as [|output rest]; [done|].
    intros [= <- <-]. apply lookup_insert_eq.
Qed.

(** [bundleEntry] removes nothing from the cache and changes no entry. *)
Lemma bundleEntry_keeps (entryPath key text : string) (st : State World) :
  bundleCache st !! key = Some text →
  bundleCache (bundleEntry env entryPath st).2 !! key = Some text.
Proof.
  intros H. unfold bundleEntry.
  destruct (bundleCache st !! entryPath) as [cached|] eqn:E; [done|].
  destruct (Bun_build _ _) as [[result|err] w']; [|done].
  destruct (outputs result) as [|output rest]; [done|].
  simpl. rewrite lookup_insert_ne; [done|]. congruence.
Qed.


(** As to the cache and the calls of the bundler, [fetch] does nothing
    or what [bundleEntry] does. *)
Lemma fetch_src_state (path : string) (st : State World) :
  (bundleCache (fetch_src env path st).2 = bundleCache st
   ∧ builds (fetch_src env path st).2 = builds st)
  ∨ (bundleCache (fetch_src env path st).2
     = bundleCache (bundleEntry env ("." +:+ path) st).2
     ∧ builds (fetch_src env path st).2
       = builds (bundleEntry env ("." +:+ path) st).2).
Proof.
  unfold fetch_src.
  destruct (file_exists _ _); [|by left].
  destruct (JsString.endsWith _ ".css"); [by left|].
  destruct (_ || _); [|by left].
  destruct (bundleEntry env _ st) as [[err|bundled] st']; by right.
Qed.

Lemma fetch_state (path : string) (st : State World) :
  (bundleCache (fetch env path st).2 = bundleCache st
   ∧ builds (fetch env path st).2 = builds st)
  ∨ (bundleCache (fetch env path st).2
     = bundleCache (bundleEntry env ("." +:+ path) st).2
     ∧ builds (fetch env path st).2
       = builds (bundleEntry env ("." +:+ path) st).2).
Proof.
  unfold fetch.
  destruct (String.eqb path "/"); [by left|].
  destruct (_ && _); [by left|].
  destruct (JsString.startsWith path "/src/"); [|by left].
  apply fetch_src_state.
Qed.

(** A request for a module goes to [bundleEntry]: 200 with the bundle,
    or 500 with the error. *)
Lemma fetch_served_by_bundler (path : string) (st : State World) :
  served_by_bundler path (world st) = true →
  fetch env path st =
  match bundleEntry env ("." +:+ path) st with
  | (inr bundled, st') =>
      ({| status := 200; content_type := Some "application/javascript";
          body := TextBody bundled |}, st')
  | (inl err, st') =>
      ({| status := 500; content_type := None;
          body := TextBody ("Error bundling: " +:+ error_toString err) |},
       {| bundleCache := bundleCache st';
          world := world st';
          console := console st' ++ [ErrorBundling ("." +:+ path) err];
          builds := builds st' |})
  end.
Proof.
  unfold served_by_bundler.
  intros [[[Hsrc Hex]%andb_true_iff Hcss%negb_true_iff]%andb_true_iff
          Hts]%andb_true_iff.
  pose proof (JsStringFacts.startsWith_split _ _ Hsrc) as Hp.
  assert (String.eqb path "/" = false) as E1 by (by rewrite Hp).
  assert (JsString.startsWith path "/public/" = false) as E2
    by (by rewrite Hp).
  unfold fetch, fetch_src. by rewrite E1, E2, Hsrc, Hex, Hcss, Hts.
Qed.

(** The calls of the bundler only grow. *)
Lemma bundleEntry_builds (entryPath : string) (st : State World) :
  ∃ more, builds (bundleEntry env entryPath st).2 = builds st ++ more.
Proof.
  destruct (bundleCache st !! entryPath) as [text|] eqn:E.
  - exists []. by rewrite (bundleEntry_hit _ _ _ E), app_nil_r.
  - eexists. by apply bundleEntry_miss.
Qed.







(** An operation that keeps the cache keeps every entry of it. *)
Lemma step_keeps (op : Op) (key text : string) (st : State World) :
  keeps_cache op = true →
  bundleCache st !! key = Some text →
  bundleCache (step env op st) !! key = Some text.
Proof.
  intros Hop H. destruct op as [path|entryPath| |eventType filename|change];
    simpl in *.
  - destruct (fetch_state path st) as [[-> _]|[-> _]]; [done|].
    by apply bundleEntry_keeps.
  - by apply bundleEntry_keeps.
  - done.
  - destruct filename as [name|]; [|done]. simpl. by rewrite Hop.
  - done.
Qed.

Lemma run_keeps (ops : list Op) (key text : string) (st : State World) :
  forallb keeps_cache ops = true →
  bundleCache st !! key = Some text →
  bundleCache (run env ops st) !! key = Some text.
Proof.
  revert st. induction ops as [|op ops IH]; intros st Hops H; [done|].
  simpl in Hops. apply andb_true_iff in Hops as [Hop Hops].
  apply (IH _ Hops). by apply step_keeps.
Qed.

(** *** The calls as they interleave *)




(** A call that nothing interrupts is [bundleEntry]. *)
Lemma react_uninterrupted (entryPath : string) (st : State World) :
  react_all env [Call entryPath; Resume 0; Resume 0]
    {| server := st; pending := [] |}
  = {| server := (bundleEntry env entryPath st).2; pending := [] |}.
Proof.
  unfold react_all, bundleEntry. simpl.
  destruct (bundleCache st !! entryPath) as [cached|]; simpl.
  { destruct st; done. }
  destruct (Bun_build _ _) as [[result|err] w']; simpl; [|done].
  destruct (outputs result) as [|output rest]; by simpl.
Qed.

End Handlers.

End ServerFacts.

(** ** The claims about the bundle cache and the development server *)


(** ** The claim about the application root *)

Module AppFacts.
Import App.

Lemma eval_literal_stringify (s : string) :
  eval_literal (JSON.stringify s) = Some (Str s).
Proof.
  unfold eval_literal.
  destruct (String.eqb_spec (JSON.stringify s) "undefined") as [E|_]; [done|].
  by rewrite JSONFacts.parse_stringify.
Qed.

(** [import.meta.env] as the development server defines it. *)
Lemma import_meta_env_of_dev (env : Env) :
  import_meta_env_of (Server.dev_define env)
  = Some {| VITE_SUBSCRIBEDEV_PUBLIC_API_KEY :=
              Str (env_or env PUBLIC_API_KEY EmptyString);
            VITE_SUBSCRIBEDEV_LOCAL_ACCESS_TOKEN :=
              Str (env_or env LOCAL_ACCESS_TOKEN EmptyString) |}.
Proof.
  unfold import_meta_env_of, Server.dev_define.
  repeat first [ rewrite lookup_insert_eq
               | rewrite lookup_insert_ne by BuildFacts.key_ne ].
  simpl. by rewrite !eval_literal_stringify.
Qed.

Lemma env_or_other (env : Env) (name other v fallback : string) :
  name ≠ other →
  env_or (<[other := v]> env) name fallback = env_or env name fallback.
Proof. intros H. unfold env_or. by rewrite lookup_insert_ne. Qed.

(** A provider that is given the token does depend on it. *)
Lemma documented_setup_reads_token :
  documented_setup {| VITE_SUBSCRIBEDEV_PUBLIC_API_KEY := Str "pub_1";
                      VITE_SUBSCRIBEDEV_LOCAL_ACCESS_TOKEN := Str "eyJ" |}
  ≠ documented_setup {| VITE_SUBSCRIBEDEV_PUBLIC_API_KEY := Str "pub_1";
                        VITE_SUBSCRIBEDEV_LOCAL_ACCESS_TOKEN := Undefined |}.
Proof. done. Qed.

End AppFacts.

(** C10.  [App] gives the provider one prop, [projectToken], the public API
    key; it does not read the local access token, so two values of the token
    give the same rendered element, and under the table of the development
    server, which does inject the token, the element is the same whatever
    the environment holds for the token. *)
Theorem app_passes_only_the_public_key
    (key token1 token2 : App.Value) (env : Env) (v : string) :
  App.provider_props
    (App.App {| App.VITE_SUBSCRIBEDEV_PUBLIC_API_KEY := key;
                App.VITE_SUBSCRIBEDEV_LOCAL_ACCESS_TOKEN := token1 |})
  = [("projectToken", key)]
  ∧ App.App {| App.VITE_SUBSCRIBEDEV_PUBLIC_API_KEY := key;
               App.VITE_SUBSCRIBEDEV_LOCAL_ACCESS_TOKEN := token1 |}
    = App.App {| App.VITE_SUBSCRIBEDEV_PUBLIC_API_KEY := key;
                 App.VITE_SUBSCRIBEDEV_LOCAL_ACCESS_TOKEN := token2 |}
  ∧ App.App <$> App.import_meta_env_of
                  (Server.dev_define (<[LOCAL_ACCESS_TOKEN := v]> env))
    = App.App <$> App.import_meta_env_of (Server.dev_define env).
Proof.
  split; [done|]. split; [done|].
  rewrite !AppFacts.import_meta_env_of_dev. simpl. unfold App.App. simpl.
  by rewrite AppFacts.env_or_other by BuildFacts.key_ne.
Qed.

(** * Further properties *)

(** ** Routing of requests *)

Module RoutingFacts.
Import Server.

Section Handlers.
Context {World : Type} `{!Runtime World}.
Variable env : Env.

Lemma src_prefix (path : string) :
  JsString.startsWith path "/src/" = true →
  String.eqb path "/" = false ∧ JsString.startsWith path "/public/" = false.
Proof.
  intros H. rewrite (JsStringFacts.startsWith_split _ _ H). by split.
Qed.

Lemma public_prefix (path : string) :
  JsString.startsWith path "/public/" = true →
  String.eqb path "/" = false ∧ JsString.startsWith path "/src/" = false.
Proof.
  intros H. rewrite (JsStringFacts.startsWith_split _ _ H). by split.
Qed.

(** A request that is not for a module changes nothing in the server. *)
Lemma fetch_not_served (path : string) (st : State World) :
  served_by_bundler path (world st) = false →
  (fetch env path st).2 = st.
Proof.
  unfold served_by_bundler, fetch, fetch_src. intros H.
  destruct (String.eqb path "/"); [done|].
  destruct (JsString.startsWith path "/public/" && _); [done|].
  destruct (JsString.startsWith path "/src/"); [|done].
  destruct (file_exists _ _); [|done].
  destruct (JsString.endsWith _ ".css"); [done|].
  by destruct (_ || _).
Qed.

(** The statuses of a request that is not for a module. *)
Lemma fetch_not_served_status (path : string) (st : State World) :
  served_by_bundler path (world st) = false →
  status (fetch env path st).1 = 200 ∨ (fetch env path st).1 = not_found.
Proof.
  unfold served_by_bundler, fetch, fetch_src. intros H.
  destruct (String.eqb path "/"); [by left|].
  destruct (JsString.startsWith path "/public/" && _); [by left|].
  destruct (JsString.startsWith path "/src/"); [|by right].
  destruct (file_exists _ _); [|by right].
  destruct (JsString.endsWith _ ".css"); [by left|].
  destruct (_ || _); [done|by right].
Qed.

(** A file that does not exist is not found, whatever the path but [/]. *)
Lemma fetch_no_file (path : string) (st : State World) :
  path ≠ "/" →
  file_exists ("." +:+ path) (world st) = false →
  fetch env path st = (not_found, st).
Proof.
  intros Hp Hex. unfold fetch, fetch_src. rewrite Hex.
  destruct (String.eqb_spec path "/") as [E|_]; [by elim Hp|].
  destruct (JsString.startsWith path "/public/"); simpl;
    by destruct (JsString.startsWith path "/src/").
Qed.

Lemma served_module_key (path : string) (w : World) :
  served_by_bundler path w = true → module_key ("." +:+ path).
Proof.
  unfold served_by_bundler.
  intros [[[Hsrc _]%andb_true_iff _]%andb_true_iff Hts%orb_true_iff]%andb_true_iff.
  split; [exact Hsrc|done].
Qed.

End Handlers.

End RoutingFacts.

Module ServerMore.
Import Server.

Section Handlers.
Context {World : Type} `{!Runtime World}.
Variable env : Env.

(** A request hands [bundleEntry] a module key only, and what it leaves
    in the cache and in the list of builds is what [bundleEntry] left. *)
Lemma fetch_module_state (path : string) (st : State World) :
  (fetch env path st).2 = st
  ∨ (module_key ("." +:+ path)
     ∧ bundleCache (fetch env path st).2
       = bundleCache (bundleEntry env ("." +:+ path) st).2
     ∧ builds (fetch env path st).2
       = builds (bundleEntry env ("." +:+ path) st).2).
Proof.
  destruct (served_by_bundler path (world st)) eqn:E.
  - right. split; [by eapply RoutingFacts.served_module_key|].
    rewrite (ServerFacts.fetch_served_by_bundler env _ _ E).
    by destruct (bundleEntry env _ st) as [[err|bundled] st'].
  - left. by apply RoutingFacts.fetch_not_served.
Qed.

(** [bundleEntry] adds at most one build, of its own path. *)
Lemma bundleEntry_builds_one (entryPath : string) (st : State World) :
  builds (bundleEntry env entryPath st).2 = builds st
  ∨ ∃ outcome,
      builds (bundleEntry env entryPath st).2
      = builds st ++ [(dev_config env entryPath, outcome)].
Proof.
  destruct (bundleCache st !! entryPath) as [text|] eqn:E.
  - left. by rewrite (ServerFacts.bundleEntry_hit env _ _ _ E).
  - right. eexists. by apply ServerFacts.bundleEntry_miss.
Qed.

(** [bundleEntry] adds at most its own path to the cache. *)
Lemma bundleEntry_cache_key (entryPath key : string) (st : State World) :
  is_Some (bundleCache (bundleEntry env entryPath st).2 !! key) →
  key = entryPath ∨ is_Some (bundleCache st !! key).
Proof.
  unfold bundleEntry.
  destruct (bundleCache st !! entryPath) as [cached|] eqn:E; [by right|].
  destruct (Bun_build _ _) as [[result|err] w']; [|by right].
  destruct (outputs result) as [|output rest]; [by right|]. simpl.
  destruct (decide (entryPath = key)) as [<-|Hne]; [by left|].
  rewrite lookup_insert_ne by done. by right.
Qed.

Lemma step_modules_only (op : Op) (st : State World) :
  from_outside op = true → modules_only st → modules_only (step env op st).
Proof.
  intros Hop [Hc Hb].
  destruct op as [path|entryPath| |eventType filename|change]; simpl; [|done| | |].
  - unfold modules_only.
    destruct (fetch_module_state path st) as [->|(Hk & -> & ->)]; [done|].
    split.
    + intros key [->|H]%bundleEntry_cache_key; [done|by apply Hc].
    + destruct (bundleEntry_builds_one ("." +:+ path) st) as [->|[o ->]]; [done|].
      apply Forall_app. split; [done|]. apply Forall_singleton.
      by exists ("." +:+ path).
  - split; [|done]. intros key. simpl. rewrite lookup_empty. by intros [? ?].
  - destruct filename as [name|]; [|done]. simpl.
    destruct (String.eqb name EmptyString); [done|].
    split; [|done]. intros key. simpl. rewrite lookup_empty. by intros [? ?].
  - done.
Qed.

Lemma run_modules_only (ops : list Op) (st : State World) :
  forallb from_outside ops = true → modules_only st →
  modules_only (run env ops st).
Proof.
  revert st. induction ops as [|op ops IH]; intros st Hops H; [done|].
  simpl in Hops. apply andb_true_iff in Hops as [Hop Hops].
  apply (IH _ Hops). by apply step_modules_only.
Qed.

(** Notifications of the watcher, one after the other. *)
Lemma run_watch (notes : list (string * option string)) (st : State World) :
  let st' := run env (map (λ n, OpWatch n.1 n.2) notes) st in
  builds st' = builds st ∧ world st' = world st
  ∧ (bundleCache st' = bundleCache st ∨ bundleCache st' = ∅).
Proof.
  revert st. induction notes as [|[eventType filename] notes IH]; intros st.
  { simpl. auto. }
  simpl. specialize (IH (on_watch eventType filename st)). simpl in IH.
  destruct IH as (Hb & Hw & Hc). unfold run in *. rewrite Hb, Hw.
  destruct filename as [name|]; simpl in *; [|done].
  destruct (String.eqb name EmptyString); simpl in *; [done|].
  split; [done|]. split; [done|]. right. by destruct Hc as [->| ->].
Qed.

End Handlers.

End ServerMore.

(** ** Further properties of the development server *)

(** X1.  A request that [fetch] does not hand to [bundleEntry] (the root
    document, a public asset, a stylesheet, anything unknown) changes
    nothing in the server: no entry of the cache, no call of the bundler,
    no line printed. *)
Theorem static_request_leaves_server_untouched
    {World : Type} `{!Runtime World} (env : Env) (path : string)
    (st : Server.State World) :
  Server.served_by_bundler path (Server.world st) = false →
  (Server.fetch env path st).2 = st.
Proof. apply RoutingFacts.fetch_not_served. Qed.

Lemma static_request_leaves_server_untouched_witness :
  (Server.fetch ∅ "/src/index.css" (Server.initial Sample.files)).2
  = Server.initial Sample.files.
Proof.
  exact (static_request_leaves_server_untouched ∅ "/src/index.css"
           (Server.initial Sample.files) eq_refl).
Defined.

(** X2.  Every response has status 200, 404 or 500, and 500 is given only
    to a request for a module on which [bundleEntry] failed. *)
Theorem response_statuses
    {World : Type} `{!Runtime World} (env : Env) (path : string)
    (st : Server.State World) :
  (Server.status (Server.fetch env path st).1 = 200
   ∨ Server.status (Server.fetch env path st).1 = 404
   ∨ Server.status (Server.fetch env path st).1 = 500)
  ∧ (Server.status (Server.fetch env path st).1 = 500 →
     Server.served_by_bundler path (Server.world st) = true
     ∧ ∃ err, (Server.bundleEntry env ("." +:+ path) st).1 = inl err).
Proof.
  destruct (Server.served_by_bundler path (Server.world st)) eqn:E.
  - rewrite (ServerFacts.fetch_served_by_bundler env _ _ E).
    destruct (Server.bundleEntry env _ st) as [[err|bundled] st']; simpl.
    + split; [auto|]. intros _. split; [done|]. by exists err.
    + split; [auto|]. done.
  - destruct (RoutingFacts.fetch_not_served_status env _ _ E) as [H|H];
      rewrite H; simpl; split; auto; done.
Qed.

(** X3.  A request for a file that does not exist is answered 404 without
    the cache being looked at: a module that is still cached but whose file
    has been removed is not served. *)
Theorem removed_file_is_not_found
    {World : Type} `{!Runtime World} (env : Env) (path : string)
    (st : Server.State World) :
  path ≠ "/" →
  file_exists ("." +:+ path) (Server.world st) = false →
  Server.fetch env path st = (Server.not_found, st).
Proof. apply RoutingFacts.fetch_no_file. Qed.

Lemma removed_file_is_not_found_witness :
  let st := Server.step ∅ (Server.OpWorld (λ _, ∅))
              (Server.step ∅ (Server.OpFetch "/src/main.tsx")
                 (Server.initial Sample.files)) in
  Server.bundleCache st !! "./src/main.tsx" = Some "export default 1"
  ∧ Server.fetch ∅ "/src/main.tsx" st = (Server.not_found, st).
Proof.
  intros st. split; [reflexivity|].
  apply (removed_file_is_not_found ∅ "/src/main.tsx" st); [done|reflexivity].
Defined.

(** X4.  An existing stylesheet under [/src/] is served as the file itself
    with content type [text/css]; the bundler is not involved. *)
Theorem stylesheet_is_served_as_is
    {World : Type} `{!Runtime World} (env : Env) (path : string)
    (st : Server.State World) :
  JsString.startsWith path "/src/" = true →
  file_exists ("." +:+ path) (Server.world st) = true →
  JsString.endsWith ("." +:+ path) ".css" = true →
  Server.fetch env path st
  = ({| Server.status := 200; Server.content_type := Some "text/css";
        Server.body := Server.FileBody ("." +:+ path) |}, st).
Proof.
  intros Hsrc Hex Hcss.
  destruct (RoutingFacts.src_prefix _ Hsrc) as [E1 E2].
  unfold Server.fetch, Server.fetch_src. by rewrite E1, E2, Hsrc, Hex, Hcss.
Qed.

Lemma stylesheet_is_served_as_is_witness :
  Server.fetch ∅ "/src/index.css" (Server.initial Sample.files)
  = ({| Server.status := 200; Server.content_type := Some "text/css";
        Server.body := Server.FileBody "./src/index.css" |},
     Server.initial Sample.files).
Proof.
  exact (stylesheet_is_served_as_is ∅ "/src/index.css"
           (Server.initial Sample.files) eq_refl eq_refl eq_refl).
Defined.

(** X5.  A path under [/public/] is answered with the file when it exists
    and with 404 when it does not; the server is left as it was. *)
Theorem public_asset_or_not_found
    {World : Type} `{!Runtime World} (env : Env) (path : string)
    (st : Server.State World) :
  JsString.startsWith path "/public/" = true →
  Server.fetch env path st
  = (if file_exists ("." +:+ path) (Server.world st)
     then {| Server.status := 200; Server.content_type := None;
             Server.body := Server.FileBody ("." +:+ path) |}
     else Server.not_found, st).
Proof.
  intros Hpub. destruct (RoutingFacts.public_prefix _ Hpub) as [E1 E2].
  unfold Server.fetch. rewrite E1, E2, Hpub. simpl.
  by destruct (file_exists _ _).
Qed.

Lemma public_asset_or_not_found_witness :
  Server.fetch ∅ "/public/logo.svg" (Server.initial Sample.files)
  = ({| Server.status := 200; Server.content_type := None;
        Server.body := Server.FileBody "./public/logo.svg" |},
     Server.initial Sample.files)
  ∧ Server.fetch ∅ "/public/missing.png" (Server.initial Sample.files)
    = (Server.not_found, Server.initial Sample.files).
Proof.
  split.
  - exact (public_asset_or_not_found ∅ "/public/logo.svg"
             (Server.initial Sample.files) eq_refl).
  - exact (public_asset_or_not_found ∅ "/public/missing.png"
             (Server.initial Sample.files) eq_refl).
Defined.

(** X6.  The first request for a module that is not cached calls the
    bundler once, on the path with a dot before it, and answers 200 with
    the text of the first output as JavaScript; that text is then in the
    cache.  Whether the result calls itself successful is not looked at. *)
Theorem first_module_request_builds_and_caches
    {World : Type} `{!Runtime World} (env : Env) (path : string)
    (st : Server.State World) (result : BuildResult) (w' : World)
    (output : BuildArtifact) (rest : list BuildArtifact) :
  Server.served_by_bundler path (Server.world st) = true →
  Server.bundleCache st !! ("." +:+ path) = None →
  Bun_build (Server.dev_config env ("." +:+ path)) (Server.world st)
  = (Resolved result, w') →
  outputs result = output :: rest →
  Server.fetch env path st
  = ({| Server.status := 200;
        Server.content_type := Some "application/javascript";
        Server.body := Server.TextBody (artifact_text output) |},
     {| Server.bundleCache :=
          <["." +:+ path := artifact_text output]> (Server.bundleCache st);
        Server.world := w';
        Server.console := Server.console st;
        Server.builds :=
          Server.builds st
          ++ [(Server.dev_config env ("." +:+ path), Resolved result)] |}).
Proof.
  intros Hs Hc Hb Ho.
  rewrite (ServerFacts.fetch_served_by_bundler env _ _ Hs).
  unfold Server.bundleEntry. by rewrite Hc, Hb, Ho.
Qed.

Lemma first_module_request_builds_and_caches_witness :
  (Server.fetch ∅ "/src/main.tsx" (Server.initial Sample.files)).1
  = {| Server.status := 200;
       Server.content_type := Some "application/javascript";
       Server.body := Server.TextBody "export default 1" |}
  ∧ Server.bundleCache
      (Server.fetch ∅ "/src/main.tsx" (Server.initial Sample.files)).2
    !! "./src/main.tsx" = Some "export default 1".
Proof.
  rewrite (@first_module_request_builds_and_caches _ Sample.runtime ∅
             "/src/main.tsx" (Server.initial Sample.files) _ _ _ _
             eq_refl eq_refl eq_refl eq_refl).
  split; reflexivity.
Defined.

(** X7.  A request for a module answered 200 is answered again in the same
    way, from the cache, as long as the file exists: the same response and
    no further call of the bundler. *)
Theorem module_request_repeats_from_cache
    {World : Type} `{!Runtime World} (env : Env) (path : string)
    (st st1 : Server.State World) (resp : Server.Response) :
  Server.served_by_bundler path (Server.world st) = true →
  Server.fetch env path st = (resp, st1) →
  Server.status resp = 200 →
  Server.served_by_bundler path (Server.world st1) = true →
  Server.fetch env path st1 = (resp, st1).
Proof.
  intros Hs Hf H200 Hs1.
  rewrite (ServerFacts.fetch_served_by_bundler env _ _ Hs) in Hf.
  destruct (Server.bundleEntry env _ st) as [[err|bundled] st'] eqn:E.
  - injection Hf as <- <-. done.
  - injection Hf as <- <-.
    rewrite (ServerFacts.fetch_served_by_bundler env _ _ Hs1).
    by rewrite (ServerFacts.bundleEntry_hit env _ _ _
                  (ServerFacts.bundleEntry_ok env _ _ _ _ E)).
Qed.

Lemma module_request_repeats_from_cache_witness :
  let r := Server.fetch ∅ "/src/main.tsx" (Server.initial Sample.files) in
  Server.fetch ∅ "/src/main.tsx" r.2 = r.
Proof.
  exact (@module_request_repeats_from_cache _ Sample.runtime ∅ "/src/main.tsx"
           (Server.initial Sample.files) _ _ eq_refl eq_refl eq_refl eq_refl).
Defined.

(** X8.  One request calls the bundler at most once. *)
Theorem request_builds_at_most_once
    {World : Type} `{!Runtime World} (env : Env) (path : string)
    (st : Server.State World) :
  ∃ more,
    Server.builds (Server.fetch env path st).2 = Server.builds st ++ more
    ∧ length more ≤ 1.
Proof.
  destruct (ServerMore.fetch_module_state env path st) as [->|(_ & _ & ->)].
  - exists []. rewrite app_nil_r. split; [done|simpl; lia].
  - destruct (ServerMore.bundleEntry_builds_one env ("." +:+ path) st)
      as [->|[o ->]].
    + exists []. rewrite app_nil_r. split; [done|simpl; lia].
    + eexists. split; [done|simpl; lia].
Qed.

(** X9.  The watcher never builds: after any notifications the calls of
    the bundler and the world are as before, and the cache is as before or
    empty. *)
Theorem watcher_never_builds
    {World : Type} `{!Runtime World} (env : Env)
    (notes : list (string * option string)) (st : Server.State World) :
  Server.builds
    (Server.run env (map (λ n, Server.OpWatch n.1 n.2) notes) st)
  = Server.builds st
  ∧ Server.world
      (Server.run env (map (λ n, Server.OpWatch n.1 n.2) notes) st)
    = Server.world st
  ∧ (Server.bundleCache
       (Server.run env (map (λ n, Server.OpWatch n.1 n.2) notes) st)
     = Server.bundleCache st
     ∨ Server.bundleCache
         (Server.run env (map (λ n, Server.OpWatch n.1 n.2) notes) st)
       = ∅).
Proof. apply (ServerMore.run_watch env notes st). Qed.

(** X11.  A server reached only from outside (requests, clears, watcher
    notifications, changes of the files) caches, and asks the bundler
    for, nothing but files under [./src/] whose names end in [.tsx] or
    [.ts]. *)
Theorem requests_bundle_only_modules
    {World : Type} `{!Runtime World} (env : Env) (w : World)
    (ops : list (Server.Op (World := World))) :
  forallb Server.from_outside ops = true →
  Server.modules_only (Server.run env ops (Server.initial w)).
Proof.
  intros Hops. apply ServerMore.run_modules_only; [done|].
  split; [|done]. intros key. simpl. rewrite lookup_empty. by intros [? ?].
Qed.

Lemma requests_bundle_only_modules_witness :
  Server.modules_only
    (Server.run ∅
       [Server.OpFetch "/src/main.tsx"; Server.OpFetch "/src/index.css";
        Server.OpFetch "/public/logo.svg"; Server.OpFetch "/etc/passwd"]
       (Server.initial Sample.files)).
Proof.
  exact (requests_bundle_only_modules ∅ Sample.files
           [Server.OpFetch "/src/main.tsx"; Server.OpFetch "/src/index.css";
            Server.OpFetch "/public/logo.svg"; Server.OpFetch "/etc/passwd"]
           eq_refl).
Defined.

(** ** More about [replace] *)

Module JsStringMore.
Import JsString JsStringFacts.

Lemma startsWith_app_l (x y p : string) :
  startsWith x p = true → startsWith (x +:+ y) p = true.
Proof.
  intros H. rewrite (startsWith_split _ _ H), app_assoc. apply startsWith_app.
Qed.

(** Before its first occurrence the pattern does not occur. *)
Lemma split_first_before (p s a b : string) :
  p ≠ EmptyString →
  split_first p s = Some (a, b) → split_first p a = None.
Proof.
  intros Hp. assert (split_first p EmptyString = None) as Hnil.
  { by destruct p. }
  revert a b. induction s as [|c s IH]; intros a b; cbn [split_first].
  - destruct (startsWith EmptyString p) eqn:E; [|done]. by intros [= <- <-].
  - destruct (startsWith (String c s) p) eqn:E; [by intros [= <- <-]|].
    destruct (split_first p s) as [[a' b']|] eqn:Es; [|done].
    intros [= <- <-]. cbn [split_first]. rewrite (IH _ _ eq_refl).
    destruct (startsWith (String c a') p) eqn:E'; [|done].
    apply split_first_Some in Es as [-> _].
    pose proof (startsWith_app_l (String c a') (p +:+ b') p E') as E''.
    rewrite app_cons in E''. congruence.
Qed.

Lemma self_inert_nonempty (p : string) : self_inert p = true → p ≠ EmptyString.
Proof. by destruct p. Qed.

(** Where nothing of [x +:+ m +:+ y] holds [p], neither part does. *)
Lemma split_first_inert_None (p m x y : string) :
  inert p m = true →
  split_first p (x +:+ m +:+ y) = None →
  split_first p x = None ∧ split_first p y = None.
Proof.
  intros H. rewrite (split_first_inert _ _ _ _ H).
  destruct (split_first p x) as [[a b]|]; [done|].
  by destruct (split_first p y) as [[a b]|].
Qed.

(** Two replacements whose patterns and replacement texts keep clear of
    each other can be made in either order. *)
Lemma replace_comm (s p r q t : string) :
  self_inert p = true → inert p q = true → inert p t = true →
  inert q p = true → inert q r = true →
  replace (replace s p r) q t = replace (replace s q t) p r.
Proof.
  intros Hp Hpq Hpt Hqp Hqr.
  rewrite (replace_split s p), (replace_split s q).
  destruct (split_first p s) as [[a b]|] eqn:Ep.
  - pose proof (split_first_before _ _ _ _ (self_inert_nonempty _ Hp) Ep) as Ha.
    apply split_first_Some in Ep as [-> _].
    rewrite (split_first_inert q p) by done.
    rewrite (replace_split (a +:+ r +:+ b)), (split_first_inert q r) by done.
    destruct (split_first q a) as [[a1 a2]|] eqn:Eqa.
    + apply split_first_Some in Eqa as [-> _].
      apply (split_first_inert_None p q) in Ha as [Ha1 Ha2]; [|done].
      rewrite replace_split, (split_first_inert p t), Ha1 by done.
      rewrite (split_first_self p), Ha2 by done.
      by rewrite !app_assoc.
    + destruct (split_first q b) as [[b1 b2]|] eqn:Eqb.
      * rewrite replace_split, !app_assoc.
        rewrite (split_first_self p), Ha by done. done.
      * rewrite replace_split, (split_first_self p), Ha by done. done.
  - destruct (split_first q s) as [[a b]|] eqn:Eq.
    + pose proof Eq as Eq'. apply split_first_Some in Eq' as [-> _].
      apply (split_first_inert_None p q) in Ep as [Ha Hb]; [|done].
      rewrite (replace_split _ q), Eq.
      by rewrite (replace_split (a +:+ t +:+ b)),
                 (split_first_inert p t), Ha, Hb by done.
    + by rewrite (replace_split s q), Eq, (replace_split s p), Ep.
Qed.

Lemma occurrences_split (p s a b : string) :
  split_first p s = Some (a, b) → 0 < occurrences p s.
Proof.
  revert a b. induction s as [|c s IH]; intros a b; cbn [split_first occurrences].
  - destruct (startsWith EmptyString p); [lia|done].
  - destruct (startsWith (String c s) p); [lia|].
    destruct (split_first p s) as [[a' b']|]; [|done].
    intros _. specialize (IH _ _ eq_refl). lia.
Qed.

(** The pattern is absent exactly when it occurs zero times. *)
Lemma includes_occurrences (p s : string) :
  includes s p = false ↔ occurrences p s = 0.
Proof.
  split.
  - intros H. by apply occurrences_no_split, includes_split_first.
  - intros H. unfold includes.
    destruct (indexOf s p) as [i|] eqn:E; [|done].
    pose proof (split_first_indexOf p s) as Hs. rewrite E in Hs. simpl in Hs.
    apply occurrences_split in Hs. lia.
Qed.

(** A string that starts with the pattern has it replaced at its head. *)
Lemma replace_prefix (s p r : string) :
  startsWith s p = true → replace s p r = r +:+ drop (String.length p) s.
Proof.
  intros H. rewrite replace_split.
  destruct s as [|c s]; cbn [split_first]; by rewrite H.
Qed.

Lemma replace_not_included (s p r : string) :
  includes s p = false → replace s p r = s.
Proof.
  intros H. by rewrite replace_split, (includes_split_first _ _ H).
Qed.

End JsStringMore.

(** ** Further properties of the production build *)

Module BuildMore.
Import Build.

Lemma build_define_env_or (env1 env2 : Env) :
  env_or env1 PUBLIC_API_KEY EmptyString = env_or env2 PUBLIC_API_KEY EmptyString →
  build_config env1 = build_config env2.
Proof. intros H. unfold build_config, build_define. by rewrite H. Qed.

Section Script.
Context {World : Type} `{!Runtime World}.

Lemma after_success_status (cwd : string) (result : BuildResult) (w : World) :
  match file_text "./index.html" w with
  | inr html =>
      termination (after_success cwd result w) = Completed
      ∧ writes (effects (after_success cwd result w))
        = [("./dist/index.html", updatedHtml html)]
  | inl err =>
      termination (after_success cwd result w) = Uncaught err
      ∧ writes (effects (after_success cwd result w)) = []
  end.
Proof.
  destruct (file_text "./index.html" w) as [err|html] eqn:E.
  - unfold after_success. rewrite E. simpl. split; [done|].
    apply (BuildFacts.writes_console_log
             (λ output, OutputLine (JsString.replace (artifact_path output) cwd ".")
                                   (artifact_size output))).
  - destruct (BuildFacts.after_success_writes cwd result w html E). by split.
Qed.

End Script.

End BuildMore.

(** X12.  The production build reads the environment at the public API key
    only, and an empty key counts as an unset one: two environments that
    give the same key (or none) give the same run of the script, whatever
    else they hold. *)
Theorem production_build_reads_public_key_only
    {World : Type} `{!Runtime World} (env1 env2 : Env) (cwd : string) (w : World) :
  env_or env1 PUBLIC_API_KEY EmptyString = env_or env2 PUBLIC_API_KEY EmptyString →
  Build.run_build env1 cwd w = Build.run_build env2 cwd w.
Proof.
  intros H. unfold Build.run_build.
  by rewrite (BuildMore.build_define_env_or _ _ H).
Qed.

Lemma production_build_reads_public_key_only_witness :
  Build.run_build {[ PUBLIC_API_KEY := ""; "PORT" := "8080" ]} "/app" Sample.files
  = Build.run_build ∅ "/app" Sample.files.
Proof.
  exact (@production_build_reads_public_key_only _ Sample.runtime
           {[ PUBLIC_API_KEY := ""; "PORT" := "8080" ]} ∅ "/app" Sample.files
           eq_refl).
Defined.

(** X14.  When the bundling succeeds but index.html cannot be read, the
    script has already printed that the build was successful and listed
    the outputs; it then dies of the read error: status 1, and no
    dist/index.html. *)
Theorem unreadable_html_after_successful_build
    {World : Type} `{!Runtime World} (env : Env) (cwd : string) (w w' : World)
    (result : BuildResult) (err : JsError) :
  Bun_build (Build.build_config env) w = (Resolved result, w') →
  success result = true →
  file_text "./index.html" w' = inl err →
  let r := Build.run_build env cwd w in
  Build.termination r = Build.Uncaught err
  ∧ Build.exit_status (Build.termination r) = 1%Z
  ∧ Build.writes (Build.effects r) = []
  ∧ ∃ listing,
      Build.effects r
      = Build.ConsoleLog Build.BuildSuccessful
        :: Build.ConsoleLog (Build.Generated (length (outputs result)))
        :: listing
      ∧ length listing = length (outputs result).
Proof.
  intros Hb Hs Hf. simpl.
  rewrite (BuildFacts.run_build_success _ _ _ _ _ Hb Hs).
  pose proof (BuildMore.after_success_status cwd result w') as H.
  rewrite Hf in H. destruct H as [Ht Hw].
  rewrite Ht. split; [done|]. split; [done|]. split; [done|].
  unfold Build.after_success. rewrite Hf. simpl.
  eexists. split; [done|]. by rewrite length_map.
Qed.

Lemma unreadable_html_after_successful_build_witness :
  let files : gmap string string := {[ "./src/main.tsx" := "export default 1" ]} in
  let r := Build.run_build ∅ "/app" files in
  Build.termination r = Build.Uncaught (Error "ENOENT: ./index.html")
  ∧ Build.exit_status (Build.termination r) = 1%Z
  ∧ Build.writes (Build.effects r) = []
  ∧ ∃ listing,
      Build.effects r
      = Build.ConsoleLog Build.BuildSuccessful
        :: Build.ConsoleLog (Build.Generated 1)
        :: listing
      ∧ length listing = 1.
Proof.
  exact (@unreadable_html_after_successful_build _ Sample.runtime ∅ "/app"
           ({[ "./src/main.tsx" := "export default 1" ]} : gmap string string)
           _ _ _ eq_refl eq_refl eq_refl).
Defined.

(** X15.  The two replacements of build.ts can be made in either order:
    replacing the script reference first and the stylesheet reference
    second gives the same document. *)
Theorem html_replacements_commute (html : string) :
  JsString.replace
    (JsString.replace html "/src/main.tsx" "/main.js")
    "/src/index.css" "/main.css"
  = Build.updatedHtml html.
Proof.
  unfold Build.updatedHtml. symmetry.
  by apply JsStringMore.replace_comm.
Qed.

(** X16.  The document written is the input unchanged exactly when the
    input mentions neither [/src/index.css] nor [/src/main.tsx]. *)
Theorem html_unchanged_iff_no_reference (html : string) :
  Build.updatedHtml html = html
  ↔ JsString.includes html "/src/index.css" = false
    ∧ JsString.includes html "/src/main.tsx" = false.
Proof.
  split.
  - intros H.
    pose proof (BuildFacts.occurrences_css_updatedHtml html) as H1.
    pose proof (BuildFacts.occurrences_tsx_updatedHtml html) as H2.
    rewrite H in H1, H2.
    split; apply JsStringMore.includes_occurrences; lia.
  - intros [H1 H2]. rewrite BuildFacts.updatedHtml_rewrite_refs.
    by apply BuildFacts.rewrite_refs_no_reference.
Qed.

(** X17.  When the input mentions each of the two files at most once, the
    document written mentions neither any more, and rewriting it again
    changes nothing. *)
Theorem single_references_are_all_rewritten (html : string) :
  JsString.occurrences "/src/index.css" html ≤ 1 →
  JsString.occurrences "/src/main.tsx" html ≤ 1 →
  JsString.includes (Build.updatedHtml html) "/src/index.css" = false
  ∧ JsString.includes (Build.updatedHtml html) "/src/main.tsx" = false
  ∧ Build.updatedHtml (Build.updatedHtml html) = Build.updatedHtml html.
Proof.
  intros H1 H2.
  assert (JsString.includes (Build.updatedHtml html) "/src/index.css" = false) as E1.
  { apply JsStringMore.includes_occurrences.
    rewrite BuildFacts.occurrences_css_updatedHtml. lia. }
  assert (JsString.includes (Build.updatedHtml html) "/src/main.tsx" = false) as E2.
  { apply JsStringMore.includes_occurrences.
    rewrite BuildFacts.occurrences_tsx_updatedHtml. lia. }
  split; [done|]. split; [done|].
  rewrite (BuildFacts.updatedHtml_rewrite_refs (Build.updatedHtml html)).
  by apply BuildFacts.rewrite_refs_no_reference.
Qed.

Lemma single_references_are_all_rewritten_witness :
  let html :=
    "<link rel=stylesheet href=/src/index.css><script src=/src/main.tsx></script>" in
  JsString.includes (Build.updatedHtml html) "/src/index.css" = false
  ∧ JsString.includes (Build.updatedHtml html) "/src/main.tsx" = false
  ∧ Build.updatedHtml (Build.updatedHtml html) = Build.updatedHtml html.
Proof.
  apply single_references_are_all_rewritten; vm_compute; lia.
Defined.

(** X18.  After a successful build the script lists every output once, in
    order, and an output whose path starts with the working directory is
    listed with a dot in place of that directory. *)
Theorem outputs_are_listed_relative_to_cwd
    {World : Type} `{!Runtime World} (env : Env) (cwd : string) (w w' : World)
    (result : BuildResult) (html : string) :
  Bun_build (Build.build_config env) w = (Resolved result, w') →
  success result = true →
  file_text "./index.html" w' = inr html →
  Forall (λ output, JsString.startsWith (artifact_path output) cwd = true)
         (outputs result) →
  Build.effects (Build.run_build env cwd w)
  = Build.ConsoleLog Build.BuildSuccessful
    :: Build.ConsoleLog (Build.Generated (length (outputs result)))
    :: map (λ output,
              Build.ConsoleLog
                (Build.OutputLine
                   ("." +:+ JsString.drop (String.length cwd) (artifact_path output))
                   (artifact_size output)))
           (outputs result)
    ++ [Build.FileWrite "./dist/index.html" (Build.updatedHtml html);
        Build.ConsoleLog Build.HtmlCopied].
Proof.
  intros Hb Hs Hf Hall.
  rewrite (BuildFacts.run_build_success _ _ _ _ _ Hb Hs).
  unfold Build.after_success. rewrite Hf. simpl. do 2 f_equal. f_equal.
  apply map_ext_in. intros output Hin. do 2 f_equal.
  apply JsStringMore.replace_prefix.
  rewrite Forall_forall in Hall. apply Hall. by apply list_elem_of_In.
Qed.

Lemma outputs_are_listed_relative_to_cwd_witness :
  Build.effects
    (Build.run_build ∅ "./dist"
       ({[ "./src/main.tsx" := "export default 1";
           "./index.html" := "<html></html>" ]} : gmap string string))
  = [Build.ConsoleLog Build.BuildSuccessful;
     Build.ConsoleLog (Build.Generated 1);
     Build.ConsoleLog (Build.OutputLine "./main.js" 16);
     Build.FileWrite "./dist/index.html" "<html></html>";
     Build.ConsoleLog Build.HtmlCopied].
Proof.
  refine (@outputs_are_listed_relative_to_cwd _ Sample.runtime ∅ "./dist"
            ({[ "./src/main.tsx" := "export default 1";
                "./index.html" := "<html></html>" ]} : gmap string string)
            _ _ _ eq_refl eq_refl eq_refl _).
  repeat constructor.
Defined.

(** ** Further properties of the substitution tables and of the root *)

Module DefineMore.

Ltac dev_lookup :=
  unfold Server.dev_define;
  repeat first [ rewrite lookup_insert_eq
               | rewrite lookup_insert_ne by BuildFacts.key_ne ].

Lemma dev_config_env_or (env1 env2 : Env) (entryPath : string) :
  env_or env1 PUBLIC_API_KEY EmptyString = env_or env2 PUBLIC_API_KEY EmptyString →
  env_or env1 LOCAL_ACCESS_TOKEN EmptyString
  = env_or env2 LOCAL_ACCESS_TOKEN EmptyString →
  Server.dev_config env1 entryPath = Server.dev_config env2 entryPath.
Proof.
  intros H1 H2. unfold Server.dev_config, Server.dev_define. by rewrite H1, H2.
Qed.

(** [import.meta.env] as the production build defines it. *)
Lemma import_meta_env_of_build (env : Env) :
  App.import_meta_env_of (Build.build_define env)
  = Some {| App.VITE_SUBSCRIBEDEV_PUBLIC_API_KEY :=
              App.Str (env_or env PUBLIC_API_KEY EmptyString);
            App.VITE_SUBSCRIBEDEV_LOCAL_ACCESS_TOKEN := App.Undefined |}.
Proof.
  unfold App.import_meta_env_of. BuildFacts.table_lookup.
  simpl. by rewrite AppFacts.eval_literal_stringify.
Qed.

End DefineMore.

(** X19.  The table of the development server maps the public key symbol
    and the token symbol each to the JSON string literal of its variable
    (of the empty string when unset), a literal that reads back to the
    value whatever characters it holds; DEV is [true], MODE the literal
    of [development], and PROD is not in the table. *)
Theorem dev_define_injects_key_and_token (env : Env) :
  Server.dev_define env !! import_meta_env PUBLIC_API_KEY
  = Some (JSON.stringify (default EmptyString (env !! PUBLIC_API_KEY)))
  ∧ Server.dev_define env !! import_meta_env LOCAL_ACCESS_TOKEN
    = Some (JSON.stringify (default EmptyString (env !! LOCAL_ACCESS_TOKEN)))
  ∧ (Server.dev_define env !! import_meta_env LOCAL_ACCESS_TOKEN
       ≫= JSON.parse_string)
    = Some (default EmptyString (env !! LOCAL_ACCESS_TOKEN))
  ∧ Server.dev_define env !! import_meta_env "DEV" = Some "true"
  ∧ Server.dev_define env !! import_meta_env "MODE"
    = Some (JSON.stringify "development")
  ∧ Server.dev_define env !! import_meta_env "PROD" = None.
Proof.
  assert (Server.dev_define env !! import_meta_env LOCAL_ACCESS_TOKEN
          = Some (JSON.stringify (default EmptyString (env !! LOCAL_ACCESS_TOKEN))))
    as Htoken.
  { DefineMore.dev_lookup. by rewrite BuildFacts.env_or_empty. }
  split; [DefineMore.dev_lookup; by rewrite BuildFacts.env_or_empty|].
  split; [done|].
  split; [rewrite Htoken; simpl; apply JSONFacts.parse_stringify|].
  repeat split; DefineMore.dev_lookup; done.
Qed.

(** X20.  The development server reads the environment at the public key
    and at the local access token only, an empty value counting as unset:
    two environments that agree there answer every request alike. *)
Theorem dev_server_reads_key_and_token_only
    {World : Type} `{!Runtime World} (env1 env2 : Env) (path : string)
    (st : Server.State World) :
  env_or env1 PUBLIC_API_KEY EmptyString = env_or env2 PUBLIC_API_KEY EmptyString →
  env_or env1 LOCAL_ACCESS_TOKEN EmptyString
  = env_or env2 LOCAL_ACCESS_TOKEN EmptyString →
  Server.fetch env1 path st = Server.fetch env2 path st.
Proof.
  intros H1 H2. unfold Server.fetch, Server.fetch_src, Server.bundleEntry.
  by rewrite (DefineMore.dev_config_env_or env1 env2 _ H1 H2).
Qed.

Lemma dev_server_reads_key_and_token_only_witness :
  Server.fetch {[ "PORT" := "8080"; LOCAL_ACCESS_TOKEN := "" ]} "/src/main.tsx"
    (Server.initial Sample.files)
  = Server.fetch ∅ "/src/main.tsx" (Server.initial Sample.files).
Proof.
  exact (@dev_server_reads_key_and_token_only _ Sample.runtime
           {[ "PORT" := "8080"; LOCAL_ACCESS_TOKEN := "" ]} ∅ "/src/main.tsx"
           (Server.initial Sample.files) eq_refl eq_refl).
Defined.

(** X21.  Under the table of the production build the component sees the
    public key of the environment and an undefined token, and [App]
    renders the same element as under the table of the development
    server: the provider with the public key as [projectToken]. *)
Theorem app_renders_alike_in_development_and_production (env : Env) :
  App.import_meta_env_of (Build.build_define env)
  = Some {| App.VITE_SUBSCRIBEDEV_PUBLIC_API_KEY :=
              App.Str (env_or env PUBLIC_API_KEY EmptyString);
            App.VITE_SUBSCRIBEDEV_LOCAL_ACCESS_TOKEN := App.Undefined |}
  ∧ App.App <$> App.import_meta_env_of (Build.build_define env)
    = App.App <$> App.import_meta_env_of (Server.dev_define env)
  ∧ App.provider_props
      <$> (App.App <$> App.import_meta_env_of (Build.build_define env))
    = Some [("projectToken", App.Str (env_or env PUBLIC_API_KEY EmptyString))].
Proof.
  rewrite DefineMore.import_meta_env_of_build, AppFacts.import_meta_env_of_dev.
  done.
Qed.

(** ** Further properties of the calls as they interleave *)



(** ** The port *)

Module PortFacts.
Import JsNumber.

Ltac digit_cases d H :=
  let Hd := fresh "Hd" in
  assert (d = 0 ∨ d = 1 ∨ d = 2 ∨ d = 3 ∨ d = 4 ∨ d = 5 ∨ d = 6 ∨ d = 7
          ∨ d = 8 ∨ d = 9)%N as Hd by lia;
  clear H;
  destruct Hd as [->|[->|[->|[->|[->|[->|[->|[->|[->| ->]]]]]]]]].

Lemma digit_value_digit_char (d : N) :
  (d < 10)%N → digit_value 10 (digit_char d) = Some d.
Proof. intros H. digit_cases d H; reflexivity. Qed.

Lemma no_hex_mark_digit (d : N) (s : string) :
  (d < 10)%N → no_hex_mark (String (digit_char d) s) = true.
Proof. intros H. digit_cases d H; reflexivity. Qed.

Lemma digits_stop (s : string) (acc : option N) :
  no_digit_ahead s = true → digits 10 s acc = acc.
Proof.
  destruct s as [|c s]; [done|]. simpl.
  by destruct (digit_value 10 c).
Qed.

(** The digits of a numeral are read to its end. *)
Lemma digits_numeral (ds : list N) (rest : string) (acc : N) :
  Forall (λ d, d < 10)%N ds → no_digit_ahead rest = true →
  digits 10 (numeral ds +:+ rest) (Some acc) = Some (spelled acc ds).
Proof.
  intros Hds Hrest. revert acc.
  induction Hds as [|d ds Hd _ IH]; intros acc.
  - by apply digits_stop.
  - cbn [numeral]. rewrite JsStringFacts.app_cons. cbn [digits].
    rewrite (digit_value_digit_char _ Hd). cbn [default]. apply IH.
Qed.

Lemma digits_numeral_first (d : N) (ds : list N) (rest : string) :
  Forall (λ d, d < 10)%N (d :: ds) → no_digit_ahead rest = true →
  digits 10 (String (digit_char d) (numeral ds +:+ rest)) None
  = Some (spelled 0 (d :: ds)).
Proof.
  intros Hds Hrest. inversion Hds as [|? ? Hd Hds']; subst.
  cbn [digits]. rewrite (digit_value_digit_char _ Hd). simpl.
  by apply digits_numeral.
Qed.

(** A string that starts with a decimal digit, not followed by the mark of
    radix 16, is read in radix 10 from its first code unit. *)
Lemma parseInt_digit (d : N) (s : string) :
  (d < 10)%N → no_hex_mark s = true →
  parseInt (String (digit_char d) s)
  = match digits 10 (String (digit_char d) s) None with
    | None => NaN
    | Some n => if (n <? 2 ^ 53)%N then Int (Z.of_N n) else Inexact
    end.
Proof.
  intros H Hs. digit_cases d H; try reflexivity.
  destruct s as [|c s]; [reflexivity|].
  destruct c as [[] [] [] [] [] [] [] []]; try reflexivity; discriminate Hs.
Qed.

Lemma no_hex_mark_numeral (ds : list N) (rest : string) :
  Forall (λ d, d < 10)%N ds → no_hex_mark rest = true →
  no_hex_mark (numeral ds +:+ rest) = true.
Proof.
  intros Hds Hrest. destruct Hds as [|d ds Hd _]; [done|].
  cbn [numeral]. rewrite JsStringFacts.app_cons. by apply no_hex_mark_digit.
Qed.

End PortFacts.

(** X25.  With PORT unset or empty the port is 3000. *)
Theorem port_defaults_to_3000 (env : Env) :
  env !! "PORT" = None ∨ env !! "PORT" = Some EmptyString →
  Server.PORT env = JsNumber.Int 3000.
Proof.
  unfold Server.PORT, env_or. by intros [-> | ->].
Qed.

Lemma port_defaults_to_3000_witness :
  Server.PORT {[ PUBLIC_API_KEY := "pub_1" ]} = JsNumber.Int 3000.
Proof.
  exact (port_defaults_to_3000 {[ PUBLIC_API_KEY := "pub_1" ]}
           (or_introl eq_refl)).
Defined.

(** X26.  When PORT holds a decimal numeral, possibly followed by other
    text that starts with neither a digit nor [x], the port is the number
    the numeral spells (below 2^53): what follows the digits is ignored. *)
Theorem port_is_the_leading_numeral
    (env : Env) (d : N) (ds : list N) (rest : string) :
  env !! "PORT" = Some (JsNumber.numeral (d :: ds) +:+ rest) →
  Forall (λ d, d < 10)%N (d :: ds) →
  JsNumber.no_digit_ahead rest = true →
  JsNumber.no_hex_mark rest = true →
  (JsNumber.spelled 0 (d :: ds) < 2 ^ 53)%N →
  Server.PORT env = JsNumber.Int (Z.of_N (JsNumber.spelled 0 (d :: ds))).
Proof.
  intros Henv Hds Hrest Hx Hsmall.
  unfold Server.PORT, env_or. rewrite Henv.
  cbn [JsNumber.numeral]. rewrite JsStringFacts.app_cons.
  cbn [String.eqb]. inversion Hds as [|? ? Hd Hds']; subst.
  rewrite PortFacts.parseInt_digit
    by (done || by apply PortFacts.no_hex_mark_numeral).
  rewrite PortFacts.digits_numeral_first by done.
  by apply N.ltb_lt in Hsmall as ->.
Qed.

Lemma port_is_the_leading_numeral_witness :
  Server.PORT {[ "PORT" := "8080/tcp" ]} = JsNumber.Int 8080.
Proof.
  refine (port_is_the_leading_numeral {[ "PORT" := "8080/tcp" ]}
            8 [0; 8; 0]%N "/tcp" eq_refl _ eq_refl eq_refl _).
  - repeat constructor.
  - reflexivity.
Defined.

(** X27.  When PORT holds text that, after leading white space, starts
    with neither a sign nor a decimal digit, the port is not a number: the
    fallback of 3000 is for an unset or empty PORT only. *)
Theorem port_of_other_text_is_nan
    (env : Env) (text : string) (c : ascii) (rest : string) :
  env !! "PORT" = Some text →
  JsNumber.trim_start text = String c rest →
  c ≠ "-"%char → c ≠ "+"%char →
  JsNumber.digit_value 10 c = None →
  Server.PORT env = JsNumber.NaN.
Proof.
  intros Henv Htrim Hm Hp Hd.
  assert (text ≠ EmptyString) as Hne by (by intros ->).
  unfold Server.PORT, env_or. rewrite Henv.
  destruct (String.eqb_spec text EmptyString) as [|_]; [done|].
  unfold JsNumber.parseInt. rewrite Htrim.
  assert (match String c rest with
          | String "-" r => (true, r)
          | String "+" r => (false, r)
          | _ => (false, String c rest)
          end%char = (false, String c rest)) as ->.
  { destruct c as [[] [] [] [] [] [] [] []]; try reflexivity;
      [by elim Hp | by elim Hm]. }
  assert (match String c rest with
          | String "0" (String "x" r) => (16%N, r)
          | String "0" (String "X" r) => (16%N, r)
          | _ => (10%N, String c rest)
          end%char = (10%N, String c rest)) as ->.
  { destruct c as [[] [] [] [] [] [] [] []]; try reflexivity; discriminate Hd. }
  cbn [JsNumber.digits]. by rewrite Hd.
Qed.

Lemma port_of_other_text_is_nan_witness :
  Server.PORT {[ "PORT" := " http" ]} = JsNumber.NaN.
Proof.
  refine (port_of_other_text_is_nan {[ "PORT" := " http" ]} " http" "h" "ttp"
            eq_refl eq_refl _ _ eq_refl); done.
Defined.

(** * The cache while calls are in flight *)

Module InFlightFacts.
Import Server.

Section Handlers.
Context {World : Type} `{!Runtime World}.
Variable env : Env.

(** While no call on a cached path is in flight, a step that does not
    clear the cache keeps the entry of the path, and starts no call on it. *)
Lemma react_keeps_cached (entryPath text : string) (ev : Event) (r : Running) :
  keeps_cache_event ev = true →
  bundleCache (server r) !! entryPath = Some text →
  none_in_flight entryPath (pending r) →
  bundleCache (server (react env ev r)) !! entryPath = Some text
  ∧ none_in_flight entryPath (pending (react env ev r)).
Proof.
  intros Hev Hc Hp. destruct ev as [p|i| |eventType filename|change];
    unfold react; simpl in Hev.
  - destruct (bundleCache (server r) !! p) as [cached|] eqn:E; [done|].
    destruct (Bun_build _ _) as [outcome w']. simpl. split; [done|].
    apply Forall_app. split; [done|]. apply Forall_singleton. simpl.
    intros ->. congruence.
  - destruct (pending r !! i) as [[p [result|err]|p bundled]|] eqn:E; [| | |done].
    + pose proof (Forall_lookup_1 _ _ _ _ Hp E) as Hne. simpl in Hne.
      destruct (outputs result) as [|output rest]; simpl.
      * split; [done|]. by apply Forall_delete.
      * split; [done|]. by apply Forall_insert.
    + split; [done|]. by apply Forall_delete.
    + pose proof (Forall_lookup_1 _ _ _ _ Hp E) as Hne. simpl in Hne.
      simpl. split; [by rewrite lookup_insert_ne|]. by apply Forall_delete.
  - done.
  - destruct filename as [name|]; [|done]. simpl. by rewrite Hev.
  - done.
Qed.

Lemma react_all_keeps_cached (entryPath text : string) (evs : list Event)
    (r : Running) :
  forallb keeps_cache_event evs = true →
  bundleCache (server r) !! entryPath = Some text →
  none_in_flight entryPath (pending r) →
  bundleCache (server (react_all env evs r)) !! entryPath = Some text
  ∧ none_in_flight entryPath (pending (react_all env evs r)).
Proof.
  revert r. induction evs as [|ev evs IH]; intros r Hevs Hc Hp; [done|].
  simpl in Hevs. apply andb_true_iff in Hevs as [Hev Hevs].
  destruct (react_keeps_cached _ _ _ _ Hev Hc Hp) as [Hc' Hp'].
  by apply (IH _ Hevs).
Qed.

(** While no call on a path that is not cached is in flight, a step that is
    not a call on it leaves the path out of the cache. *)
Lemma react_keeps_uncached (entryPath : string) (ev : Event) (r : Running) :
  not_call_on entryPath ev = true →
  bundleCache (server r) !! entryPath = None →
  none_in_flight entryPath (pending r) →
  bundleCache (server (react env ev r)) !! entryPath = None
  ∧ none_in_flight entryPath (pending (react env ev r)).
Proof.
  intros Hev Hc Hp. destruct ev as [p|i| |eventType filename|change];
    unfold react; simpl in Hev.
  - apply negb_true_iff, String.eqb_neq in Hev.
    destruct (bundleCache (server r) !! p) as [cached|] eqn:E; [done|].
    destruct (Bun_build _ _) as [outcome w']. simpl. split; [done|].
    apply Forall_app. split; [done|]. by apply Forall_singleton.
  - destruct (pending r !! i) as [[p [result|err]|p bundled]|] eqn:E; [| | |done].
    + pose proof (Forall_lookup_1 _ _ _ _ Hp E) as Hne. simpl in Hne.
      destruct (outputs result) as [|output rest]; simpl.
      * split; [done|]. by apply Forall_delete.
      * split; [done|]. by apply Forall_insert.
    + split; [done|]. by apply Forall_delete.
    + pose proof (Forall_lookup_1 _ _ _ _ Hp E) as Hne. simpl in Hne.
      simpl. split; [by rewrite lookup_insert_ne|]. by apply Forall_delete.
  - done.
  - destruct filename as [name|]; [|done]. simpl.
    by destruct (String.eqb name EmptyString).
  - done.
Qed.

Lemma react_all_keeps_uncached (entryPath : string) (evs : list Event)
    (r : Running) :
  forallb (not_call_on entryPath) evs = true →
  bundleCache (server r) !! entryPath = None →
  none_in_flight entryPath (pending r) →
  bundleCache (server (react_all env evs r)) !! entryPath = None
  ∧ none_in_flight entryPath (pending (react_all env evs r)).
Proof.
  revert r. induction evs as [|ev evs IH]; intros r Hevs Hc Hp; [done|].
  simpl in Hevs. apply andb_true_iff in Hevs as [Hev Hevs].
  destruct (react_keeps_uncached _ _ _ Hev Hc Hp) as [Hc' Hp'].
  by apply (IH _ Hevs).
Qed.

(** A call on a path that is not cached: one call of the bundler, on the
    world as it is, and one more call in flight. *)
Lemma react_call_miss (entryPath : string) (r : Running) :
  bundleCache (server r) !! entryPath = None →
  react env (Call entryPath) r
  = {| server :=
         {| bundleCache := bundleCache (server r);
            world := (Bun_build (dev_config env entryPath) (world (server r))).2;
            console := console (server r);
            builds := builds (server r)
                      ++ [(dev_config env entryPath,
                           (Bun_build (dev_config env entryPath)
                              (world (server r))).1)] |};
       pending := pending r
                  ++ [AwaitBuild entryPath
                        (Bun_build (dev_config env entryPath)
                           (world (server r))).1] |}.
Proof.
  intros H. unfold react. rewrite H. by destruct (Bun_build _ _).
Qed.

(** A call on a cached path changes nothing. *)
Lemma react_call_hit (entryPath text : string) (r : Running) :
  bundleCache (server r) !! entryPath = Some text →
  react env (Call entryPath) r = r.
Proof. intros H. unfold react. by rewrite H. Qed.

End Handlers.

End InFlightFacts.

(** C2, as amended.  When [bundleEntry] has bundled a path once and no other
    call on that path is in flight, then after any steps that do not clear
    the cache (calls, calls in flight going on, watcher notifications
    without a file name, changes of the files) a call on the path returns
    the same text and leaves the whole state as it is: the bundler is not
    called again, and the files are not looked at.  This holds for whole
    calls and requests one after the other and for calls that interleave
    at their awaits. *)
Theorem bundleEntry_memoizes_while_none_in_flight
    {World : Type} `{!Runtime World} (env : Env) (entryPath text : string)
    (st st1 : Server.State World) (ops : list (Server.Op (World := World)))
    (ps : list Server.Pending) (evs : list (Server.Event (World := World))) :
  Server.bundleEntry env entryPath st = (inr text, st1) →
  forallb Server.keeps_cache ops = true →
  Server.none_in_flight entryPath ps →
  forallb Server.keeps_cache_event evs = true →
  (let st2 := Server.run env ops st1 in
   Server.bundleEntry env entryPath st2 = (inr text, st2)
   ∧ Server.builds (Server.bundleEntry env entryPath st2).2 = Server.builds st2)
  ∧ (let r := Server.react_all env evs
                {| Server.server := st1; Server.pending := ps |} in
     Server.bundleEntry env entryPath (Server.server r)
     = (inr text, Server.server r)
     ∧ Server.builds (Server.bundleEntry env entryPath (Server.server r)).2
       = Server.builds (Server.server r)
     ∧ Server.react env (Server.Call entryPath) r = r).
Proof.
  intros H Hops Hps Hevs.
  pose proof (ServerFacts.bundleEntry_ok env _ _ _ _ H) as Hc.
  split.
  - intros st2.
    assert (Server.bundleEntry env entryPath st2 = (inr text, st2)) as E.
    { by apply ServerFacts.bundleEntry_hit, ServerFacts.run_keeps. }
    by rewrite E.
  - intros r.
    destruct (InFlightFacts.react_all_keeps_cached env entryPath text evs
                {| Server.server := st1; Server.pending := ps |} Hevs Hc Hps)
      as [Hc' _].
    fold r in Hc'.
    rewrite (ServerFacts.bundleEntry_hit env _ _ _ Hc').
    split; [done|]. split; [done|].
    by apply (InFlightFacts.react_call_hit env _ text).
Qed.

(** C2 at work: a module is bundled; another module is then requested and
    bundled in steps, the file of the first is edited and the watcher
    reports a change without a name; a call on the first module still
    returns the first text, with no call of the bundler. *)
Lemma bundleEntry_memoizes_while_none_in_flight_witness :
  let st1 := (Server.bundleEntry ∅ "./src/main.tsx" (Server.initial Sample.files)).2 in
  let r :=
    Server.react_all ∅
      [Server.Call "./src/notes.md";
       Server.Changed (λ files, <["./src/main.tsx" := "export default 2"]> files);
       Server.Resume 0;
       Server.Watched "change" None;
       Server.Resume 0]
      {| Server.server := st1; Server.pending := [] |} in
  Server.bundleEntry ∅ "./src/main.tsx" (Server.server r)
  = (inr "export default 1", Server.server r)
  ∧ Server.builds (Server.bundleEntry ∅ "./src/main.tsx" (Server.server r)).2
    = Server.builds (Server.server r)
  ∧ Server.react ∅ (Server.Call "./src/main.tsx") r = r.
Proof.
  exact (proj2
    (@bundleEntry_memoizes_while_none_in_flight _ Sample.runtime ∅
       "./src/main.tsx" "export default 1" (Server.initial Sample.files) _
       [] []
       [Server.Call "./src/notes.md";
        Server.Changed (λ files, <["./src/main.tsx" := "export default 2"]> files);
        Server.Resume 0;
        Server.Watched "change" None;
        Server.Resume 0]
       eq_refl eq_refl (@List.Forall_nil _ _) eq_refl)).
Defined.

(** C2, refuted as stated.  A first call on a module waits for
    [text()] when the file is edited and a second call on the module is
    made; the second call misses the cache and builds again.  The first
    call then stores and returns the first text.  When the second call has
    gone on to its end, with no clear of the cache in between, the cache
    holds the second text, and a call on the module returns it: not the
    text the first call returned, and after two calls of the bundler. *)
Lemma call_in_flight_overwrites_cached_bundle :
  let r1 :=
    Server.react_all ∅
      [Server.Call "./src/main.tsx"; Server.Resume 0;
       Server.Changed (λ files, <["./src/main.tsx" := "export default 2"]> files);
       Server.Call "./src/main.tsx"; Server.Resume 0]
      {| Server.server := Server.initial Sample.files; Server.pending := [] |} in
  let r2 := Server.react_all ∅ [Server.Resume 0; Server.Resume 0] r1 in
  Server.bundleCache (Server.server r1) !! "./src/main.tsx"
  = Some "export default 1"
  ∧ length (Server.pending r1) = 1
  ∧ Server.bundleEntry ∅ "./src/main.tsx" (Server.server r2)
    = (inr "export default 2", Server.server r2)
  ∧ length (Server.builds (Server.server r2)) = 2.
Proof. vm_compute. done. Qed.



(** C4, refuted as stated.  When [Bun.build] rejects, the bundling has
    failed and the script prints nothing: neither [Build failed] nor any
    detail of the failure; the rejection is left uncaught. *)
Lemma rejected_build_is_not_reported_by_the_script :
  let r := @Build.run_build unit Sample.rejecting ∅ "/app" tt in
  Build.build_failed
    (@Bun_build unit Sample.rejecting (Build.build_config ∅) tt).1
  ∧ Build.effects r = []
  ∧ Build.termination r
    = Build.Uncaught {| err_name := "AggregateError";
                        err_message := "Bundle failed" |}.
Proof. done. Qed.

(** C5, as amended.  [bundleCache.clear()] empties the cache whatever it
    holds, and so does a watcher notification that names a file.  When no
    call on a path is in flight at that moment, the path stays out of the
    cache through any steps that are not a call on it, and the next call
    on it calls the bundler exactly once, on the world as it then is. *)
Theorem clear_then_bundleEntry_builds_once
    {World : Type} `{!Runtime World} (env : Env) (entryPath : string)
    (eventType : string) (c : ascii) (name : string)
    (clearing : Server.Event (World := World))
    (r : Server.Running (World := World))
    (evs : list (Server.Event (World := World))) :
  clearing = Server.Cleared
  ∨ clearing = Server.Watched eventType (Some (String c name)) →
  Server.none_in_flight entryPath (Server.pending r) →
  forallb (Server.not_call_on entryPath) evs = true →
  Server.bundleCache (Server.server (Server.react env clearing r)) = ∅
  ∧ (let r' := Server.react_all env evs (Server.react env clearing r) in
     Server.bundleCache (Server.server r') !! entryPath = None
     ∧ Server.builds (Server.bundleEntry env entryPath (Server.server r')).2
       = Server.builds (Server.server r')
         ++ [(Server.dev_config env entryPath,
              (Bun_build (Server.dev_config env entryPath)
                 (Server.world (Server.server r'))).1)]
     ∧ Server.builds (Server.server (Server.react env (Server.Call entryPath) r'))
       = Server.builds (Server.server r')
         ++ [(Server.dev_config env entryPath,
              (Bun_build (Server.dev_config env entryPath)
                 (Server.world (Server.server r'))).1)]).
Proof.
  intros Hcl Hp Hevs.
  assert (Server.bundleCache (Server.server (Server.react env clearing r)) = ∅
          ∧ Server.pending (Server.react env clearing r) = Server.pending r)
    as [Hempty Hpending].
  { by destruct Hcl as [-> | ->]. }
  split; [done|]. intros r'.
  destruct (InFlightFacts.react_all_keeps_uncached env entryPath evs
              (Server.react env clearing r) Hevs) as [Hnone _].
  { by rewrite Hempty, lookup_empty. }
  { by rewrite Hpending. }
  fold r' in Hnone. split; [done|].
  split; [by apply ServerFacts.bundleEntry_miss|].
  by rewrite (InFlightFacts.react_call_miss env _ _ Hnone).
Qed.

(** C5 at work: a module is cached, the cache is cleared, another module is
    requested and bundled; the next call on the first module calls the
    bundler once. *)
Lemma clear_then_bundleEntry_builds_once_witness :
  let r :=
    {| Server.server :=
         (Server.bundleEntry ∅ "./src/main.tsx" (Server.initial Sample.files)).2;
       Server.pending := [] |} in
  let r' :=
    Server.react_all ∅
      [Server.Call "./src/notes.md"; Server.Resume 0; Server.Resume 0]
      (Server.react ∅ Server.Cleared r) in
  Server.bundleCache (Server.server r) !! "./src/main.tsx"
  = Some "export default 1"
  ∧ Server.bundleCache (Server.server (Server.react ∅ Server.Cleared r)) = ∅
  ∧ Server.bundleCache (Server.server r') !! "./src/main.tsx" = None
  ∧ length (Server.builds (Server.server r')) = 2
  ∧ length (Server.builds
              (Server.bundleEntry ∅ "./src/main.tsx" (Server.server r')).2) = 3.
Proof.
  intros r r'.
  destruct (@clear_then_bundleEntry_builds_once _ Sample.runtime ∅
              "./src/main.tsx" "change" "m" "ain.tsx" Server.Cleared r
              [Server.Call "./src/notes.md"; Server.Resume 0; Server.Resume 0]
              (or_introl eq_refl) (@List.Forall_nil _ _) eq_refl)
    as (Hempty & Hnone & Hb & _).
  split; [reflexivity|]. split; [exact Hempty|]. split; [exact Hnone|].
  split; [reflexivity|].
  fold r' in Hb. rewrite Hb, length_app. reflexivity.
Defined.

(** C5, refuted as stated.  Two calls on a module are in flight; the first
    stores its bundle, so the module is cached; the cache is cleared; the
    second call then goes on and stores its bundle.  The next call on the
    module, a path cached before the clear, finds it in the cache and
    calls the bundler not at all. *)
Lemma call_in_flight_refills_cleared_cache :
  let r1 :=
    Server.react_all ∅
      [Server.Call "./src/main.tsx"; Server.Call "./src/main.tsx";
       Server.Resume 0; Server.Resume 0]
      {| Server.server := Server.initial Sample.files; Server.pending := [] |} in
  let r2 :=
    Server.react_all ∅ [Server.Cleared; Server.Resume 0; Server.Resume 0] r1 in
  Server.bundleCache (Server.server r1) !! "./src/main.tsx"
  = Some "export default 1"
  ∧ Server.bundleCache (Server.server (Server.react ∅ Server.Cleared r1)) = ∅
  ∧ Server.bundleEntry ∅ "./src/main.tsx" (Server.server r2)
    = (inr "export default 1", Server.server r2)
  ∧ Server.builds (Server.bundleEntry ∅ "./src/main.tsx" (Server.server r2)).2
    = Server.builds (Server.server r2).
Proof. vm_compute. done. Qed.

(** * Which occurrence is rewritten *)

Module RewriteFacts.
Import Build.

Lemma includes_split (p s : string) :
  JsString.includes s p
  = match JsString.split_first p s with Some _ => true | None => false end.
Proof.
  unfold JsString.includes. rewrite JsStringFacts.split_first_indexOf.
  by destruct (JsString.indexOf s p).
Qed.

(** Two replacements, the first of a pattern [p] that stands in [s] after a
    text [a] without it: [p] is replaced where it stands, and the second
    pattern [q] where it first stands in [a], or else in the text after. *)
Lemma replace_around (a b p r q t : string) :
  JsString.self_inert p = true → JsString.inert q r = true →
  JsString.includes a p = false →
  JsString.replace (JsString.replace (a +:+ p +:+ b) p r) q t
  = JsString.replace a q t +:+ r
    +:+ (if JsString.includes a q then b else JsString.replace b q t).
Proof.
  intros Hp Hqr Ha.
  rewrite (JsStringFacts.replace_split (a +:+ p +:+ b) p).
  rewrite (JsStringFacts.split_first_self p) by done.
  rewrite (JsStringFacts.includes_split_first _ _ Ha).
  rewrite JsStringFacts.replace_split, (JsStringFacts.split_first_inert q r)
    by done.
  rewrite (includes_split q a), (JsStringFacts.replace_split a q).
  destruct (JsString.split_first q a) as [[a1 a2]|].
  - by rewrite !JsStringFacts.app_assoc.
  - rewrite (JsStringFacts.replace_split b q).
    destruct (JsString.split_first q b) as [[b1 b2]|]; [|done].
    by rewrite !JsStringFacts.app_assoc.
Qed.

(** The stylesheet reference is rewritten where it first stands. *)
Lemma updatedHtml_around_stylesheet (a b : string) :
  JsString.includes a "/src/index.css" = false →
  updatedHtml (a +:+ "/src/index.css" +:+ b)
  = JsString.replace a "/src/main.tsx" "/main.js" +:+ "/main.css"
    +:+ (if JsString.includes a "/src/main.tsx" then b
         else JsString.replace b "/src/main.tsx" "/main.js").
Proof. intros Ha. unfold updatedHtml. by apply replace_around. Qed.

(** The script reference is rewritten where it first stands. *)
Lemma updatedHtml_around_script (u v : string) :
  JsString.includes u "/src/main.tsx" = false →
  updatedHtml (u +:+ "/src/main.tsx" +:+ v)
  = JsString.replace u "/src/index.css" "/main.css" +:+ "/main.js"
    +:+ (if JsString.includes u "/src/index.css" then v
         else JsString.replace v "/src/index.css" "/main.css").
Proof.
  intros Hu. unfold updatedHtml.
  rewrite (JsStringMore.replace_comm _ "/src/index.css" "/main.css"
             "/src/main.tsx" "/main.js") by reflexivity.
  by apply replace_around.
Qed.

(** What follows the first stylesheet reference keeps all its stylesheet
    references. *)
Lemma tail_keeps_stylesheets (a b : string) :
  JsString.occurrences "/src/index.css"
    (if JsString.includes a "/src/main.tsx" then b
     else JsString.replace b "/src/main.tsx" "/main.js")
  = JsString.occurrences "/src/index.css" b.
Proof.
  destruct (JsString.includes a "/src/main.tsx"); [done|].
  by apply JsStringFacts.occurrences_replace_other.
Qed.

Lemma tail_keeps_scripts (u v : string) :
  JsString.occurrences "/src/main.tsx"
    (if JsString.includes u "/src/index.css" then v
     else JsString.replace v "/src/index.css" "/main.css")
  = JsString.occurrences "/src/main.tsx" v.
Proof.
  destruct (JsString.includes u "/src/index.css"); [done|].
  by apply JsStringFacts.occurrences_replace_other.
Qed.

End RewriteFacts.

(** C9.  Only the first occurrence of each of the two strings is
    rewritten.  When the input is [a], then [/src/index.css], then [b],
    with no [/src/index.css] in [a], the document written to
    dist/index.html is [a], then [/main.css], then [b], but for the one
    script reference rewritten in [a] or else in [b]: the reference after
    [a] is the one replaced, and [b] keeps every stylesheet reference it
    holds.  The same holds of [/src/main.tsx] and [/main.js].  So the
    written document has one occurrence fewer of each string than the
    input. *)
Theorem production_build_rewrites_first_occurrence_only
    {World : Type} `{!Runtime World} (env : Env) (cwd : string) (w w' : World)
    (result : BuildResult) (html : string) :
  Bun_build (Build.build_config env) w = (Resolved result, w') →
  success result = true →
  file_text "./index.html" w' = inr html →
  ∃ written,
    Build.writes (Build.effects (Build.run_build env cwd w))
    = [("./dist/index.html", written)]
    ∧ (∀ a b,
         html = a +:+ "/src/index.css" +:+ b →
         JsString.includes a "/src/index.css" = false →
         written
         = JsString.replace a "/src/main.tsx" "/main.js" +:+ "/main.css"
           +:+ (if JsString.includes a "/src/main.tsx" then b
                else JsString.replace b "/src/main.tsx" "/main.js")
         ∧ JsString.occurrences "/src/index.css"
             (if JsString.includes a "/src/main.tsx" then b
              else JsString.replace b "/src/main.tsx" "/main.js")
           = JsString.occurrences "/src/index.css" b)
    ∧ (∀ u v,
         html = u +:+ "/src/main.tsx" +:+ v →
         JsString.includes u "/src/main.tsx" = false →
         written
         = JsString.replace u "/src/index.css" "/main.css" +:+ "/main.js"
           +:+ (if JsString.includes u "/src/index.css" then v
                else JsString.replace v "/src/index.css" "/main.css")
         ∧ JsString.occurrences "/src/main.tsx"
             (if JsString.includes u "/src/index.css" then v
              else JsString.replace v "/src/index.css" "/main.css")
           = JsString.occurrences "/src/main.tsx" v)
    ∧ JsString.occurrences "/src/index.css" written
      = pred (JsString.occurrences "/src/index.css" html)
    ∧ JsString.occurrences "/src/main.tsx" written
      = pred (JsString.occurrences "/src/main.tsx" html).
Proof.
  intros H Hs Hf. exists (Build.updatedHtml html).
  rewrite (BuildFacts.run_build_success _ _ _ _ _ H Hs).
  split; [by apply BuildFacts.after_success_writes|].
  split.
  { intros a b -> Ha. split; [by apply RewriteFacts.updatedHtml_around_stylesheet|].
    apply RewriteFacts.tail_keeps_stylesheets. }
  split.
  { intros u v -> Hu. split; [by apply RewriteFacts.updatedHtml_around_script|].
    apply RewriteFacts.tail_keeps_scripts. }
  split; [apply BuildFacts.occurrences_css_updatedHtml
         | apply BuildFacts.occurrences_tsx_updatedHtml].
Qed.

(** C9 at work: in a document that names each file twice the first mention
    of each is rewritten and the second is kept. *)
Lemma production_build_rewrites_first_occurrence_only_witness :
  Build.writes (Build.effects (Build.run_build (∅ : Env) "/app"
    ({[ "./src/main.tsx" := "export default 1";
        "./index.html" :=
          "/src/index.css /src/main.tsx /src/index.css /src/main.tsx" ]}
      : gmap string string)))
  = [("./dist/index.html", "/main.css /main.js /src/index.css /src/main.tsx")].
Proof.
  edestruct (@production_build_rewrites_first_occurrence_only _ Sample.runtime
               (∅ : Env) "/app"
               ({[ "./src/main.tsx" := "export default 1";
                   "./index.html" :=
                     "/src/index.css /src/main.tsx /src/index.css /src/main.tsx" ]}
                 : gmap string string))
    as (written & Hw & Hcss & _); [reflexivity..|].
  rewrite Hw.
  destruct (Hcss EmptyString " /src/main.tsx /src/index.css /src/main.tsx"
              eq_refl eq_refl) as [-> _].
  reflexivity.
Defined.
